(** * The chat front end (frontend/src/App.jsx) as a transition system

    [App] is one React function component.  Its five [useState] cells are the
    state, its event handlers and the continuations of its two [fetch] calls
    are the transitions, and the network is the environment: it decides when,
    and with what outcome, each request that is in flight settles.

    The development follows the source top-down:
    - JavaScript values, strings, truthiness, property reads;
    - the component state and the requests it issues;
    - [sendMessage], the history effect, and both continuations;
    - the rows on screen, the history panel, and the render of a state;
    - theorems about single steps, then about whole runs.

    State updates queued by one handler are applied, in order, before the
    next event is handled.  The scroll effect (lines 13-15) touches the DOM
    only and is left out, as is [e.preventDefault()]. *)

From Stdlib Require Import String Ascii NArith List Bool Lia.
From Stdlib Require Import Floats.SpecFloat.
From stdpp Require Import base option list gmap.
Import ListNotations.

Set Warnings "-register-all".
Local Open Scope N_scope.

(* ===================================================================== *)
(** ** JavaScript values *)
(* ===================================================================== *)

(** A JavaScript string is a sequence of UTF-16 code units. *)
Definition jsstring : Type := list N.

(** A source literal, all of whose characters are ASCII, one unit each. *)
Definition lit (s : string) : jsstring :=
  map N_of_ascii (list_ascii_of_string s).

(** The values that reach the component: what [JSON.parse] builds, the strings
    the component itself makes, and [undefined], which a property read gives
    for a property that is not there.  Numbers are IEEE doubles. An object
    keeps its members in the order of the JSON text. *)
Inductive JsVal : Type :=
| JUndefined
| JNull
| JBool (b : bool)
| JNum (x : spec_float)
| JStr (s : jsstring)
| JArr (elems : list JsVal)
| JObj (members : list (jsstring * JsVal)).

(** [ToBoolean]: [undefined], [null], [false], [+0], [-0], [NaN] and the empty
    string are falsy, every other value (every array and object too) is
    truthy. *)
Definition truthy (v : JsVal) : bool :=
  match v with
  | JUndefined | JNull => false
  | JBool b => b
  | JNum (S754_zero _) | JNum S754_nan => false
  | JNum _ => true
  | JStr s => match s with [] => false | _ :: _ => true end
  | JArr _ | JObj _ => true
  end.

(** [a || b]. *)
Definition js_or (a b : JsVal) : JsVal := if truthy a then a else b.

(** The own property [k] of an object built from the member list [ms]; when a
    key is repeated in the JSON text the last member wins. *)
Fixpoint own_property (ms : list (jsstring * JsVal)) (k : jsstring)
  : option JsVal :=
  match ms with
  | [] => None
  | (k', v) :: rest =>
      match own_property rest k with
      | Some v' => Some v'
      | None => if decide (k' = k) then Some v else None
      end
  end.

(** The result of evaluating an expression: a value, or a thrown [TypeError]. *)
Inductive Completion (A : Type) : Type :=
| Normal (a : A)
| Throw.
Arguments Normal {A} a.
Arguments Throw {A}.

(** [v.k] for the two property names the component reads from a response,
    [reply] and [history].  Neither is defined by a built-in prototype, so on
    a boolean, a number, a string or an array the read gives [undefined]; on
    [null] and [undefined] it throws. *)
Definition get_member (v : JsVal) (k : jsstring) : Completion JsVal :=
  match v with
  | JUndefined | JNull => Throw
  | JObj ms => Normal (default JUndefined (own_property ms k))
  | JBool _ | JNum _ | JStr _ | JArr _ => Normal JUndefined
  end.

(** Whether the JSON value has a field named [k]: only objects have fields. *)
Definition has_field (v : JsVal) (k : jsstring) : bool :=
  match v with
  | JObj ms => bool_decide (is_Some (own_property ms k))
  | _ => false
  end.

(** *** [String.prototype.trim] *)

(** ECMAScript [WhiteSpace] and [LineTerminator] code points; all of them lie
    in the basic plane, so each is one code unit. *)
Definition is_white_space (c : N) : bool :=
  (c =? 9) || (c =? 10) || (c =? 11) || (c =? 12) || (c =? 13) || (c =? 32)
  || (c =? 160) || (c =? 5760) || ((8192 <=? c) && (c <=? 8202))
  || (c =? 8232) || (c =? 8233) || (c =? 8239) || (c =? 8287)
  || (c =? 12288) || (c =? 65279).

Fixpoint trim_start (s : jsstring) : jsstring :=
  match s with
  | [] => []
  | c :: rest => if is_white_space c then trim_start rest else s
  end.

Definition trim_end (s : jsstring) : jsstring := rev (trim_start (rev s)).

Definition trim (s : jsstring) : jsstring := trim_end (trim_start s).

(** [!s] for a string [s]. *)
Definition is_empty (s : jsstring) : bool :=
  match s with [] => true | _ :: _ => false end.

(** The text is empty or made of white space only. *)
Definition blank (s : jsstring) : bool := forallb is_white_space s.

(* ===================================================================== *)
(** ** The component state and the network *)
(* ===================================================================== *)

Definition BACKEND_URL : jsstring := lit "http://localhost:5000".

(** An entry of the session list: the object literal
    [{ sender: .., text: .., timestamp: .. }]. *)
Record Message : Type := mkMessage {
  sender : JsVal;
  text : JsVal;
  timestamp : JsVal
}.

(** The five [useState] cells of [App].  [history] holds whatever
    [data.history || []] evaluated to, which need not be an array. *)
Record App : Type := mkApp {
  messages : list Message;
  input : jsstring;
  showHistory : bool;
  history : JsVal;
  loadingHistory : bool
}.

Definition setMessages (f : list Message -> list Message) (a : App) : App :=
  mkApp (f (messages a)) (input a) (showHistory a) (history a) (loadingHistory a).
Definition setInput (v : jsstring) (a : App) : App :=
  mkApp (messages a) v (showHistory a) (history a) (loadingHistory a).
Definition setShowHistory (b : bool) (a : App) : App :=
  mkApp (messages a) (input a) b (history a) (loadingHistory a).
Definition setHistory (h : JsVal) (a : App) : App :=
  mkApp (messages a) (input a) (showHistory a) h (loadingHistory a).
Definition setLoadingHistory (b : bool) (a : App) : App :=
  mkApp (messages a) (input a) (showHistory a) (history a) b.

(** What [fetch] is called with.  [body] is the value handed to
    [JSON.stringify]. *)
Record Request : Type := mkRequest {
  url : jsstring;
  method : jsstring;
  headers : list (jsstring * jsstring);
  body : option JsVal
}.

(** [fetch(`${BACKEND_URL}/chat`, { method: "POST", headers: ..., body: ... })] *)
Definition chat_request (userInput : jsstring) : Request :=
  mkRequest (BACKEND_URL ++ lit "/chat") (lit "POST")
    [(lit "Content-Type", lit "application/json")]
    (Some (JObj [(lit "message", JStr userInput)])).

(** [fetch(`${BACKEND_URL}/history`)]: a GET without a body. *)
Definition history_request : Request :=
  mkRequest (BACKEND_URL ++ lit "/history") (lit "GET") [] None.

(** How a request settles.  [fetch] rejects only when no response arrives;
    any response, whatever its status, resolves it.  [json] is what
    [res.json()] resolves to, [None] when it rejects because the body is not
    JSON text. *)
Inductive FetchOutcome : Type :=
| NetworkError
| Response (status : N) (json : option JsVal).

(** [res.ok].  The component never reads it. *)
Definition response_ok (o : FetchOutcome) : bool :=
  match o with
  | NetworkError => false
  | Response status _ => (200 <=? status) && (status <=? 299)
  end.

(** The code waiting for a request: the rest of [sendMessage] after its
    [await], or the [.then/.then/.catch] chain of the history effect. *)
Inductive Continuation : Type :=
| AwaitChat
| AwaitHistory.

(** The component together with its environment: the requests issued so far,
    in order, and the continuations still waiting.  [crashed] records that an
    exception left the component's code uncaught; React then unmounts the
    tree, there being no error boundary. *)
Record World : Type := mkWorld {
  app : App;
  crashed : bool;
  next_id : nat;
  inflight : gmap nat Continuation;
  sent : list Request
}.

Definition update (f : App -> App) (w : World) : World :=
  mkWorld (f (app w)) (crashed w) (next_id w) (inflight w) (sent w).

Definition crash (w : World) : World :=
  mkWorld (app w) true (next_id w) (inflight w) (sent w).

Definition fetch (r : Request) (k : Continuation) (w : World) : World :=
  mkWorld (app w) (crashed w) (S (next_id w))
    (<[next_id w := k]> (inflight w)) (sent w ++ [r]).

Definition settle (id : nat) (w : World) : World :=
  mkWorld (app w) (crashed w) (next_id w) (delete id (inflight w)) (sent w).

(** The state at mount.  The history effect also runs after the first
    render, with the panel closed, and does nothing. *)
Definition initial : World :=
  mkWorld (mkApp [] [] false (JArr []) false) false 0%nat ∅ [].

(* ===================================================================== *)
(** ** The transitions *)
(* ===================================================================== *)

Definition user_message (value now : jsstring) : Message :=
  mkMessage (JStr (lit "user")) (JStr value) (JStr now).

Definition bot_message (content : JsVal) (now : jsstring) : Message :=
  mkMessage (JStr (lit "bot")) content (JStr now).

Definition NO_REPLY : JsVal := JStr (lit "(No reply)").
Definition BACKEND_ERROR : JsVal := JStr (lit "Error: Could not reach backend.").

(** [sendMessage] up to its [await] (lines 32-44).  [now] is what the clock
    expression [new Date().toLocaleTimeString(..)] gives, always a string.
    The guard returns before anything is touched; otherwise the user message
    is queued, the field is cleared, and the request leaves with the text the
    field held. *)
Definition sendMessage (now : jsstring) (w : World) : World :=
  if is_empty (trim (input (app w))) then w
  else
    let userMsg := user_message (input (app w)) now in
    let userInput := input (app w) in
    fetch (chat_request userInput) AwaitChat
      (update (setInput []) (update (setMessages (fun msgs => msgs ++ [userMsg])) w)).

(** The rest of [sendMessage] (lines 45-55).  A rejected [fetch] or a rejected
    [res.json()] lands in [catch].  With a parsed body the updater
    [(msgs) => [...msgs, { .., text: data.reply || "(No reply)", .. }]] is
    handed to React: [data.reply] is read when React runs the updater, not
    inside the [try], so a [TypeError] there is not caught by [catch]. *)
Definition chat_settled (o : FetchOutcome) (now : jsstring) (w : World) : World :=
  match o with
  | Response _ (Some data) =>
      match get_member data (lit "reply") with
      | Normal reply =>
          update (setMessages (fun msgs => msgs ++ [bot_message (js_or reply NO_REPLY) now])) w
      | Throw => crash w
      end
  | Response _ None | NetworkError =>
      update (setMessages (fun msgs => msgs ++ [bot_message BACKEND_ERROR now])) w
  end.

(** The promise chain of the history effect (lines 22-27).  A [TypeError] in
    the second [then] callback rejects the chain before either setter is
    called, and [catch] handles it like any other rejection. *)
Definition history_settled (o : FetchOutcome) (w : World) : World :=
  match o with
  | Response _ (Some data) =>
      match get_member data (lit "history") with
      | Normal h =>
          update (setLoadingHistory false) (update (setHistory (js_or h (JArr []))) w)
      | Throw => update (setLoadingHistory false) w
      end
  | Response _ None | NetworkError => update (setLoadingHistory false) w
  end.

(** The body of the effect with dependency [showHistory] (lines 19-28). *)
Definition history_effect (w : World) : World :=
  if showHistory (app w)
  then fetch history_request AwaitHistory (update (setLoadingHistory true) w)
  else w.

(** After a render React runs the effect when its dependency differs from the
    one of the previous render. *)
Definition run_effects (prev : App) (w : World) : World :=
  if bool_decide (showHistory prev = showHistory (app w)) then w
  else history_effect w.

(** What can happen to the mounted component. *)
Inductive Event : Type :=
| Change (value : jsstring)       (* onChange of the text field *)
| Submit (now : jsstring)         (* onSubmit of the form *)
| ClickHistory                    (* the floating Chat History button *)
| ClickClose                      (* the cross of the side panel *)
| Settle (id : nat) (o : FetchOutcome) (now : jsstring).
                                  (* request [id] settles with outcome [o] *)

Definition handle (e : Event) (w : World) : World :=
  match e with
  | Change value => update (setInput value) w
  | Submit now => sendMessage now w
  | ClickHistory => update (setShowHistory true) w
  | ClickClose => update (setShowHistory false) w
  | Settle id o now =>
      match inflight w !! id with
      | Some AwaitChat => chat_settled o now (settle id w)
      | Some AwaitHistory => history_settled o (settle id w)
      | None => w
      end
  end.

(** One event as far as the state goes: the updates of the handler, then
    those of the effects React runs after the render.  An unmounted tree
    receives no events and shows no state, so a crashed world stays as it
    is.  The renders themselves, which can throw as well, come with
    [live_step] below. *)
Definition step (w : World) (e : Event) : World :=
  if crashed w then w else run_effects (app w) (handle e w).

Definition run (w : World) (evs : list Event) : World := fold_left step evs w.

(* ===================================================================== *)
(** ** The rows on screen *)
(* ===================================================================== *)

(** [v === s] for a string [s]: strict equality, no conversion. *)
Definition strict_eq_string (v : JsVal) (s : jsstring) : bool :=
  match v with
  | JStr t => bool_decide (t = s)
  | _ => false
  end.

(** What the callback of [messages.map] (lines 111-123) makes of one entry of
    the session list: the alignment class of the row, the bot avatar before
    the bubble, the colour classes of the bubble, its two children, the user
    avatar after it. *)
Record MessageRow : Type := mkMessageRow {
  justify : jsstring;
  bot_avatar : bool;
  bubble : jsstring;
  row_text : JsVal;
  row_timestamp : JsVal;
  user_avatar : bool
}.

Definition message_row (msg : Message) : MessageRow :=
  mkMessageRow
    (if strict_eq_string (sender msg) (lit "user")
     then lit "justify-end" else lit "justify-start")
    (strict_eq_string (sender msg) (lit "bot"))
    (if strict_eq_string (sender msg) (lit "user")
     then lit "bg-blue-500 text-white rounded-br-none"
     else lit "bg-purple-100 text-gray-800 rounded-bl-none")
    (text msg)
    (timestamp msg)
    (strict_eq_string (sender msg) (lit "user")).

Definition chat_rows (a : App) : list MessageRow := map message_row (messages a).

(** The two avatars, as UTF-16: U+1F9D1 and U+1F916. *)
Definition PERSON : jsstring := [55358; 56785].
Definition ROBOT : jsstring := [55358; 56598].

(** What the callback of [history.map] (lines 83-96) makes of one entry of
    the fetched list: the colour of the avatar, the avatar, the label, the
    text and the time.  The entry is whatever the backend sent; the property
    names read here are not defined by a built-in prototype either, so
    [get_member] applies, and the first read throws when the entry is [null]. *)
Record HistoryRow : Type := mkHistoryRow {
  avatar_colour : jsstring;
  avatar : jsstring;
  label : jsstring;
  entry_text : JsVal;
  entry_timestamp : JsVal
}.

Definition history_row (msg : JsVal) : Completion HistoryRow :=
  match get_member msg (lit "sender") with
  | Throw => Throw
  | Normal from =>
      match get_member msg (lit "text"), get_member msg (lit "timestamp") with
      | Normal content, Normal time =>
          Normal (mkHistoryRow
            (if strict_eq_string from (lit "user")
             then lit "bg-blue-200" else lit "bg-purple-200")
            (if strict_eq_string from (lit "user") then PERSON else ROBOT)
            (if strict_eq_string from (lit "user") then lit "You" else lit "Bot")
            content time)
      | _, _ => Throw
      end
  end.

(** [entries.map(callback)]: the rows in order, or the first exception. *)
Fixpoint history_rows (entries : list JsVal) : Completion (list HistoryRow) :=
  match entries with
  | [] => Normal []
  | msg :: rest =>
      match history_row msg with
      | Throw => Throw
      | Normal row =>
          match history_rows rest with
          | Throw => Throw
          | Normal rows => Normal (row :: rows)
          end
      end
  end.

(** Whether React takes the value as a child of an element: text, numbers,
    booleans, [null] and [undefined] are fine, an array is when all its
    elements are, and a plain object is refused with an exception. *)
Fixpoint valid_child (v : JsVal) : bool :=
  match v with
  | JObj _ => false
  | JArr elems => forallb valid_child elems
  | JUndefined | JNull | JBool _ | JNum _ | JStr _ => true
  end.

(** The children [{msg.text}] and [{msg.timestamp}] of a row. *)
Definition message_shown (msg : Message) : bool :=
  valid_child (text msg) && valid_child (timestamp msg).

Definition row_shown (row : HistoryRow) : bool :=
  valid_child (entry_text row) && valid_child (entry_timestamp row).

(* ===================================================================== *)
(** ** The history panel *)
(* ===================================================================== *)

(** The conditional of lines 78-97: the loading line, the empty line, or the
    mapped entries.  [history.length === 0] and [history.map(..)] are
    evaluated on whatever the cell holds: a string has a length but no [map],
    an object has the [length] it was given and a [map] that cannot be
    called, a number or a boolean has neither.  On a list the callback runs
    on every entry, and React then takes the text and the time of every row
    as children; either can throw. *)
Inductive PanelView : Type :=
| Loading
| NoHistoryYet
| Entries (entries : list JsVal)
| RenderThrows.

Definition historyPanel (a : App) : PanelView :=
  if loadingHistory a then Loading
  else
    match history a with
    | JArr [] => NoHistoryYet
    | JArr (e :: es) =>
        match history_rows (e :: es) with
        | Normal rows =>
            if forallb row_shown rows then Entries (e :: es) else RenderThrows
        | Throw => RenderThrows
        end
    | JStr [] => NoHistoryYet
    | JObj ms =>
        match own_property ms (lit "length") with
        | Some (JNum (S754_zero _)) => NoHistoryYet
        | _ => RenderThrows
        end
    | _ => RenderThrows
    end.

(* ===================================================================== *)
(** ** The render *)
(* ===================================================================== *)

(** Whether rendering [App] in this state goes through: every row of the
    session list (lines 111-123) has children React takes, and the panel
    does not throw. *)
Definition renders (a : App) : bool :=
  forallb message_shown (messages a)
  && match historyPanel a with RenderThrows => false | _ => true end.

(** A render that throws unmounts the tree, there being no error boundary. *)
Definition committed (w : World) : World :=
  if renders (app w) then w else crash w.

(** One event with its renders: the updates of the handler are rendered, then
    the effects run and their updates are rendered in turn. *)
Definition live_step (w : World) (e : Event) : World :=
  if crashed w then w
  else
    let rendered := committed (handle e w) in
    if crashed rendered then rendered
    else committed (run_effects (app w) rendered).

Definition live_run (w : World) (evs : list Event) : World :=
  fold_left live_step evs w.

(* ===================================================================== *)
(** ** Observations used in the statements *)
(* ===================================================================== *)

(** The value is [undefined] or [null]. *)
Definition absent (v : JsVal) : bool :=
  match v with JUndefined | JNull => true | _ => false end.

(** What every entry of the session list looks like. *)
Definition well_formed (m : Message) : Prop :=
  (sender m = JStr (lit "user") \/ sender m = JStr (lit "bot"))
  /\ absent (text m) = false
  /\ absent (timestamp m) = false.

(** How many requests to the history endpoint have been issued. *)
Definition history_fetches (w : World) : nat :=
  length (filter (fun r => url r = url history_request) (sent w)).

(** How many requests to the chat endpoint have been issued. *)
Definition chat_posts (w : World) : nat :=
  length (filter (fun r => url r = BACKEND_URL ++ lit "/chat") (sent w)).

(** How many times the panel goes from closed to open along a run. *)
Fixpoint open_transitions (w : World) (evs : list Event) : nat :=
  match evs with
  | [] => 0
  | e :: rest =>
      (if negb (showHistory (app w)) && showHistory (app (step w e))
       then 1 else 0)%nat
      + open_transitions (step w e) rest
  end%nat.

(** Two worlds that differ at most in what the [history] cell holds. *)
Definition same_but_history (w1 w2 : World) : Prop :=
  update (setHistory JUndefined) w1 = update (setHistory JUndefined) w2.

(* ===================================================================== *)
(** ** Concrete runs *)
(* ===================================================================== *)

(** The user types "hi" and submits at 10:00; request 0 is in flight. *)
Definition asked : World := run initial [Change (lit "hi"); Submit (lit "10:00")].

(** The user submits "hi" and then "yo" before any reply arrives. *)
Definition asked_twice : World :=
  run asked [Change (lit "yo"); Submit (lit "10:00")].

Definition empty_reply : JsVal := JObj [(lit "reply", JStr [])].
Definition hello_reply : JsVal := JObj [(lit "reply", JStr (lit "hello"))].
Definition no_reply : JsVal := JObj [(lit "answer", JStr (lit "hello"))].
Definition json_error : JsVal := JObj [(lit "error", JStr (lit "boom"))].

(** The panel has been opened once; request 0 is in flight. *)
Definition opened : World := run initial [ClickHistory].

Definition hi_entry : JsVal :=
  JObj [(lit "sender", JStr (lit "user")); (lit "text", JStr (lit "hi"));
        (lit "timestamp", JStr (lit "10:00"))].
Definition one_entry : JsVal := JObj [(lit "history", JArr [hi_entry])].
Definition malformed_history : JsVal := JObj [(lit "history", JStr (lit "oops"))].

(** The panel was opened, filled with one entry, closed and opened again;
    request 1 is in flight. *)
Definition reopened : World :=
  run initial [ClickHistory; Settle 0 (Response 200 (Some one_entry)) [];
               ClickClose; ClickHistory].

(* ===================================================================== *)
(** ** Counting *)
(* ===================================================================== *)

#[global] Instance Continuation_eq_dec : EqDecision Continuation.
Proof. solve_decision. Defined.

(** How many requests of kind [k] are waiting for the network. *)
Definition awaiting (k : Continuation) (w : World) : nat :=
  size (filter (fun p : nat * Continuation => p.2 = k) (inflight w)).

(** The entries of the session list with a given sender. *)
Definition sent_by (who : jsstring) (ms : list Message) : list Message :=
  List.filter (fun m => strict_eq_string (sender m) who) ms.

(** The requests to the chat endpoint, in the order they left. *)
Definition chat_requests (w : World) : list Request :=
  List.filter (fun r => bool_decide (url r = BACKEND_URL ++ lit "/chat")) (sent w).

(** Every waiting request was numbered before [next_id]. *)
Definition fresh (w : World) : Prop :=
  forall id k, inflight w !! id = Some k -> (id < next_id w)%nat.

(* ===================================================================== *)
(** ** Strings and values *)
(* ===================================================================== *)

Lemma trim_start_nil (s : jsstring) : trim_start s = [] <-> blank s = true.
Proof.
  induction s as [|c rest IH]; simpl; [tauto|].
  destruct (is_white_space c); simpl; [exact IH|].
  split; discriminate.
Qed.

Lemma blank_rev (s : jsstring) : blank (rev s) = blank s.
Proof.
  unfold blank. induction s as [|c rest IH]; simpl; [reflexivity|].
  rewrite forallb_app, IH. simpl. rewrite andb_true_r. apply andb_comm.
Qed.

Lemma blank_trim_start (s : jsstring) : blank (trim_start s) = blank s.
Proof.
  induction s as [|c rest IH]; simpl; [reflexivity|].
  destruct (is_white_space c) eqn:E; simpl; [exact IH|].
  rewrite E. reflexivity.
Qed.

(** [trim] leaves nothing exactly when the text is blank. *)
Lemma trim_nil (s : jsstring) : trim s = [] <-> blank s = true.
Proof.
  unfold trim, trim_end. split.
  - intros H. apply (f_equal (@rev N)) in H.
    rewrite rev_involutive in H. simpl in H.
    apply trim_start_nil in H.
    rewrite blank_rev, blank_trim_start in H. exact H.
  - intros H. apply trim_start_nil in H. rewrite H. reflexivity.
Qed.

Lemma is_empty_trim (s : jsstring) : is_empty (trim s) = blank s.
Proof.
  destruct (blank s) eqn:E.
  - apply trim_nil in E. rewrite E. reflexivity.
  - destruct (trim s) eqn:T; [|reflexivity].
    apply trim_nil in T. congruence.
Qed.

Lemma truthy_not_absent (v : JsVal) : truthy v = true -> absent v = false.
Proof. destruct v; simpl; congruence. Qed.

Lemma js_or_not_absent (a b : JsVal) : absent b = false -> absent (js_or a b) = false.
Proof.
  intros Hb. unfold js_or. destruct (truthy a) eqn:E; [|exact Hb].
  apply truthy_not_absent, E.
Qed.

Lemma url_chat_not_history (userInput : jsstring) :
  url (chat_request userInput) <> url history_request.
Proof. cbv. discriminate. Qed.

(* ===================================================================== *)
(** ** What each event does *)
(* ===================================================================== *)

Lemma step_crashed (w : World) (e : Event) : crashed w = true -> step w e = w.
Proof. intros H. unfold step. rewrite H. reflexivity. Qed.

Lemma run_effects_same (prev : App) (w : World) :
  showHistory prev = showHistory (app w) -> run_effects prev w = w.
Proof. intros H. unfold run_effects. rewrite bool_decide_eq_true_2; auto. Qed.

Lemma step_change (w : World) (value : jsstring) :
  crashed w = false -> step w (Change value) = update (setInput value) w.
Proof.
  intros H. unfold step. rewrite H. simpl. apply run_effects_same. reflexivity.
Qed.

Lemma step_submit (w : World) (now : jsstring) :
  crashed w = false -> step w (Submit now) = sendMessage now w.
Proof.
  intros H. unfold step. rewrite H. simpl. apply run_effects_same.
  unfold sendMessage. destruct (is_empty _); reflexivity.
Qed.

Lemma step_settle_chat (w : World) (id : nat) (o : FetchOutcome) (now : jsstring) :
  crashed w = false -> inflight w !! id = Some AwaitChat ->
  step w (Settle id o now) = chat_settled o now (settle id w).
Proof.
  intros H Hid. unfold step. rewrite H. simpl. rewrite Hid.
  apply run_effects_same. unfold chat_settled.
  destruct o as [|status [data|]]; try reflexivity.
  destruct (get_member data _); reflexivity.
Qed.

Lemma step_settle_history (w : World) (id : nat) (o : FetchOutcome) (now : jsstring) :
  crashed w = false -> inflight w !! id = Some AwaitHistory ->
  step w (Settle id o now) = history_settled o (settle id w).
Proof.
  intros H Hid. unfold step. rewrite H. simpl. rewrite Hid.
  apply run_effects_same. unfold history_settled.
  destruct o as [|status [data|]]; try reflexivity.
  destruct (get_member data _); reflexivity.
Qed.

Lemma step_settle_unknown (w : World) (id : nat) (o : FetchOutcome) (now : jsstring) :
  inflight w !! id = None -> step w (Settle id o now) = w.
Proof.
  intros Hid. unfold step. destruct (crashed w); [reflexivity|].
  simpl. rewrite Hid. apply run_effects_same. reflexivity.
Qed.

Lemma step_open (w : World) :
  crashed w = false -> showHistory (app w) = false ->
  step w ClickHistory =
  fetch history_request AwaitHistory
    (update (setLoadingHistory true) (update (setShowHistory true) w)).
Proof.
  intros H Hs. unfold step. rewrite H. simpl.
  unfold run_effects. simpl. rewrite Hs. reflexivity.
Qed.

Lemma step_open_again (w : World) :
  showHistory (app w) = true -> step w ClickHistory = w.
Proof.
  intros Hs. unfold step. destruct (crashed w); [reflexivity|]. simpl.
  rewrite run_effects_same by (simpl; exact Hs).
  destruct w as [[ms i s h l] c n f r]. simpl in Hs. subst s. reflexivity.
Qed.

Lemma step_close (w : World) :
  crashed w = false -> step w ClickClose = update (setShowHistory false) w.
Proof.
  intros H. unfold step. rewrite H. simpl.
  unfold run_effects, history_effect. simpl.
  destruct (bool_decide _); reflexivity.
Qed.

Lemma run_crashed (w : World) (evs : list Event) :
  crashed w = true -> run w evs = w.
Proof.
  intros H. induction evs as [|e rest IH]; simpl; [reflexivity|].
  rewrite step_crashed by exact H. exact IH.
Qed.

(** While the tree is up the renders change nothing: an event that leaves
    the component mounted leaves exactly the state of [step], and a run that
    ends mounted is a run of [step]. *)
Lemma live_step_up (w : World) (e : Event) :
  crashed (live_step w e) = false -> live_step w e = step w e.
Proof.
  unfold live_step, step. destruct (crashed w) eqn:Hc; [reflexivity|].
  assert (Hcm : forall w', crashed (committed w') = false -> committed w' = w').
  { intros w'. unfold committed. destruct (renders (app w')); [reflexivity|].
    simpl. discriminate. }
  cbv zeta.
  destruct (crashed (committed (handle e w))) eqn:Hh; [congruence|].
  rewrite (Hcm _ Hh). intros H. apply Hcm, H.
Qed.

Lemma live_step_crashed (w : World) (e : Event) :
  crashed w = true -> live_step w e = w.
Proof. intros H. unfold live_step. rewrite H. reflexivity. Qed.

Lemma live_run_up (w : World) (evs : list Event) :
  crashed (live_run w evs) = false -> live_run w evs = run w evs.
Proof.
  induction evs as [|e rest IH] using rev_ind; [reflexivity|].
  unfold live_run, run in *. rewrite !fold_left_app.
  change (fold_left live_step [e] ?x) with (live_step x e).
  change (fold_left step [e] ?x) with (step x e).
  intros H.
  assert (Hrest : crashed (fold_left live_step rest w) = false).
  { destruct (crashed (fold_left live_step rest w)) eqn:E; [|reflexivity].
    rewrite (live_step_crashed _ e E) in H. congruence. }
  rewrite (live_step_up _ _ H), (IH Hrest). reflexivity.
Qed.

(* ===================================================================== *)
(** ** The session list only grows *)
(* ===================================================================== *)

Lemma well_formed_user (value now : jsstring) : well_formed (user_message value now).
Proof. unfold well_formed; simpl; auto. Qed.

Lemma well_formed_bot (content : JsVal) (now : jsstring) :
  absent content = false -> well_formed (bot_message content now).
Proof. unfold well_formed; simpl; auto. Qed.

Lemma chat_settled_messages (o : FetchOutcome) (now : jsstring) (w : World) :
  exists appended,
    messages (app (chat_settled o now w)) = messages (app w) ++ appended
    /\ Forall well_formed appended
    /\ (length appended <= 1)%nat.
Proof.
  unfold chat_settled.
  destruct o as [|status [data|]].
  - exists [bot_message BACKEND_ERROR now]. split; [reflexivity|]. split; [|simpl; lia].
    constructor; [apply well_formed_bot; reflexivity | constructor].
  - destruct (get_member data (lit "reply")) as [reply|].
    + exists [bot_message (js_or reply NO_REPLY) now].
      split; [reflexivity|]. split; [|simpl; lia].
      constructor; [apply well_formed_bot, js_or_not_absent; reflexivity | constructor].
    + exists []. split; [simpl; rewrite app_nil_r; reflexivity|].
      split; [constructor | simpl; lia].
  - exists [bot_message BACKEND_ERROR now]. split; [reflexivity|]. split; [|simpl; lia].
    constructor; [apply well_formed_bot; reflexivity | constructor].
Qed.

Lemma history_settled_messages (o : FetchOutcome) (w : World) :
  messages (app (history_settled o w)) = messages (app w).
Proof.
  unfold history_settled.
  destruct o as [|status [data|]]; try reflexivity.
  destruct (get_member data _); reflexivity.
Qed.

(** One event appends at most one message, and a well-formed one. *)
Lemma step_messages (w : World) (e : Event) :
  exists appended,
    messages (app (step w e)) = messages (app w) ++ appended
    /\ Forall well_formed appended
    /\ (length appended <= 1)%nat.
Proof.
  assert (Hnil : forall w', messages (app w') = messages (app w) ->
    exists appended, messages (app w') = messages (app w) ++ appended
                     /\ Forall well_formed appended
                     /\ (length appended <= 1)%nat).
  { intros w' H. exists []. rewrite app_nil_r.
    split; [exact H|]. split; [constructor | simpl; lia]. }
  destruct (crashed w) eqn:Hc.
  { rewrite step_crashed by exact Hc. apply Hnil. reflexivity. }
  destruct e as [value|now| | |id o now].
  - rewrite step_change by exact Hc. apply Hnil. reflexivity.
  - rewrite step_submit by exact Hc. unfold sendMessage.
    destruct (is_empty _); [apply Hnil; reflexivity|].
    exists [user_message (input (app w)) now].
    split; [reflexivity|]. split; [|simpl; lia].
    constructor; [apply well_formed_user | constructor].
  - destruct (showHistory (app w)) eqn:Hs.
    + rewrite step_open_again by exact Hs. apply Hnil. reflexivity.
    + rewrite step_open by assumption. apply Hnil. reflexivity.
  - rewrite step_close by exact Hc. apply Hnil. reflexivity.
  - destruct (inflight w !! id) as [[|]|] eqn:Hid.
    + rewrite step_settle_chat by assumption.
      apply (chat_settled_messages o now (settle id w)).
    + rewrite step_settle_history by assumption.
      apply Hnil. rewrite history_settled_messages. reflexivity.
    + rewrite step_settle_unknown by exact Hid. apply Hnil. reflexivity.
Qed.

Lemma run_cons (w : World) (e : Event) (rest : list Event) :
  run w (e :: rest) = run (step w e) rest.
Proof. reflexivity. Qed.

Lemma run_messages (w : World) (evs : list Event) :
  exists appended,
    messages (app (run w evs)) = messages (app w) ++ appended
    /\ Forall well_formed appended.
Proof.
  revert w. induction evs as [|e rest IH]; intros w.
  - exists []. rewrite app_nil_r. split; [reflexivity | constructor].
  - destruct (IH (step w e)) as (later & Hl & Fl).
    destruct (step_messages w e) as (first & Hf & Ff & _).
    exists (first ++ later). split.
    + rewrite run_cons, Hl, Hf, app_assoc. reflexivity.
    + apply Forall_app. split; assumption.
Qed.

(* ===================================================================== *)
(** ** Requests to the history endpoint *)
(* ===================================================================== *)

Lemma history_fetches_fetch_history (w : World) (k : Continuation) :
  history_fetches (fetch history_request k w) = S (history_fetches w).
Proof.
  unfold history_fetches, fetch. simpl.
  rewrite filter_app, length_app.
  rewrite (filter_cons _ history_request).
  rewrite decide_True by reflexivity. simpl. lia.
Qed.

Lemma history_fetches_fetch_chat (w : World) (k : Continuation) (userInput : jsstring) :
  history_fetches (fetch (chat_request userInput) k w) = history_fetches w.
Proof.
  unfold history_fetches, fetch. simpl.
  rewrite filter_app, length_app.
  rewrite (filter_cons _ (chat_request userInput)).
  rewrite decide_False by apply url_chat_not_history.
  simpl. lia.
Qed.

Lemma chat_settled_sent (o : FetchOutcome) (now : jsstring) (w : World) :
  sent (chat_settled o now w) = sent w.
Proof.
  unfold chat_settled. destruct o as [|status [data|]]; try reflexivity.
  destruct (get_member data _); reflexivity.
Qed.

Lemma history_settled_sent (o : FetchOutcome) (w : World) :
  sent (history_settled o w) = sent w.
Proof.
  unfold history_settled. destruct o as [|status [data|]]; try reflexivity.
  destruct (get_member data _); reflexivity.
Qed.

Lemma chat_settled_show (o : FetchOutcome) (now : jsstring) (w : World) :
  showHistory (app (chat_settled o now w)) = showHistory (app w).
Proof.
  unfold chat_settled. destruct o as [|status [data|]]; try reflexivity.
  destruct (get_member data _); reflexivity.
Qed.

Lemma history_settled_show (o : FetchOutcome) (w : World) :
  showHistory (app (history_settled o w)) = showHistory (app w).
Proof.
  unfold history_settled. destruct o as [|status [data|]]; try reflexivity.
  destruct (get_member data _); reflexivity.
Qed.

(** A step issues a history request exactly when it opens the panel. *)
Lemma step_history_fetches (w : World) (e : Event) :
  history_fetches (step w e) =
  (history_fetches w +
   (if negb (showHistory (app w)) && showHistory (app (step w e))
    then 1 else 0))%nat.
Proof.
  destruct (crashed w) eqn:Hc.
  { rewrite step_crashed by exact Hc.
    destruct (showHistory (app w)); simpl; lia. }
  destruct e as [value|now| | |id o now].
  - rewrite step_change by exact Hc. simpl.
    unfold history_fetches. simpl.
    destruct (showHistory (app w)); simpl; lia.
  - rewrite step_submit by exact Hc. unfold sendMessage.
    destruct (is_empty _).
    + destruct (showHistory (app w)); simpl; lia.
    + rewrite history_fetches_fetch_chat. simpl.
      unfold history_fetches. simpl.
      destruct (showHistory (app w)); simpl; lia.
  - destruct (showHistory (app w)) eqn:Hs.
    + rewrite step_open_again by exact Hs. simpl. lia.
    + rewrite step_open by assumption.
      rewrite history_fetches_fetch_history. simpl.
      unfold history_fetches. simpl. lia.
  - rewrite step_close by exact Hc. simpl. rewrite andb_false_r.
    unfold history_fetches. simpl. lia.
  - destruct (inflight w !! id) as [[|]|] eqn:Hid.
    + rewrite step_settle_chat by assumption.
      unfold history_fetches. rewrite chat_settled_sent, chat_settled_show.
      simpl. destruct (showHistory (app w)); simpl; lia.
    + rewrite step_settle_history by assumption.
      unfold history_fetches. rewrite history_settled_sent, history_settled_show.
      simpl. destruct (showHistory (app w)); simpl; lia.
    + rewrite step_settle_unknown by exact Hid.
      destruct (showHistory (app w)); simpl; lia.
Qed.

Lemma run_history_fetches (w : World) (evs : list Event) :
  history_fetches (run w evs) = (history_fetches w + open_transitions w evs)%nat.
Proof.
  revert w. induction evs as [|e rest IH]; intros w.
  - simpl. lia.
  - rewrite run_cons, IH, step_history_fetches. simpl. lia.
Qed.

(** No transition reads the [history] cell: worlds that differ only there
    stay so, event by event. *)
Lemma same_but_history_step (w1 w2 : World) (e : Event) :
  same_but_history w1 w2 -> same_but_history (step w1 e) (step w2 e).
Proof.
  destruct w1 as [[m1 i1 s1 h1 l1] c1 n1 f1 r1].
  destruct w2 as [[m2 i2 s2 h2 l2] c2 n2 f2 r2].
  unfold same_but_history, update, setHistory. simpl.
  intros H. injection H as -> -> -> -> -> -> -> ->.
  unfold step. simpl. destruct c2; [reflexivity|].
  unfold run_effects, history_effect.
  destruct e as [value|now| | |id o now]; simpl.
  - rewrite !bool_decide_eq_true_2 by reflexivity. reflexivity.
  - unfold sendMessage. simpl.
    destruct (is_empty (trim i2)); simpl;
      rewrite !bool_decide_eq_true_2 by reflexivity; reflexivity.
  - destruct s2; simpl; reflexivity.
  - destruct s2; simpl; reflexivity.
  - destruct (f2 !! id) as [[|]|]; simpl.
    + unfold chat_settled.
      destruct o as [|status [data|]]; simpl;
        try (rewrite !bool_decide_eq_true_2 by reflexivity; reflexivity).
      destruct (get_member data (lit "reply")); simpl;
        rewrite !bool_decide_eq_true_2 by reflexivity; reflexivity.
    + unfold history_settled.
      destruct o as [|status [data|]]; simpl;
        try (rewrite !bool_decide_eq_true_2 by reflexivity; reflexivity).
      destruct (get_member data (lit "history")); simpl;
        rewrite !bool_decide_eq_true_2 by reflexivity; reflexivity.
    + rewrite !bool_decide_eq_true_2 by reflexivity. reflexivity.
Qed.

Lemma same_but_history_run (w1 w2 : World) (evs : list Event) :
  same_but_history w1 w2 -> same_but_history (run w1 evs) (run w2 evs).
Proof.
  revert w1 w2. induction evs as [|e rest IH]; intros w1 w2 H.
  - exact H.
  - rewrite !run_cons. apply IH, same_but_history_step, H.
Qed.

Lemma same_but_history_sent (w1 w2 : World) :
  same_but_history w1 w2 -> sent w1 = sent w2.
Proof.
  unfold same_but_history. intros H.
  apply (f_equal sent) in H. exact H.
Qed.

Lemma same_but_history_set (h : JsVal) (w : World) :
  same_but_history (update (setHistory h) w) w.
Proof. reflexivity. Qed.

(* ===================================================================== *)
(** ** The loading indicator *)
(* ===================================================================== *)

Lemma chat_settled_loading (o : FetchOutcome) (now : jsstring) (w : World) :
  loadingHistory (app (chat_settled o now w)) = loadingHistory (app w).
Proof.
  unfold chat_settled. destruct o as [|status [data|]]; try reflexivity.
  destruct (get_member data _); reflexivity.
Qed.

(** Only the settling of a history request switches the indicator off. *)
Lemma loading_cleared_by (w : World) (e : Event) :
  loadingHistory (app w) = true ->
  loadingHistory (app (step w e)) = false ->
  exists id o now, e = Settle id o now /\ inflight w !! id = Some AwaitHistory.
Proof.
  intros Hon Hoff.
  destruct (crashed w) eqn:Hc.
  { rewrite step_crashed in Hoff by exact Hc. congruence. }
  destruct e as [value|now| | |id o now].
  - rewrite step_change in Hoff by exact Hc. simpl in Hoff. congruence.
  - rewrite step_submit in Hoff by exact Hc. unfold sendMessage in Hoff.
    destruct (is_empty _); simpl in Hoff; congruence.
  - destruct (showHistory (app w)) eqn:Hs.
    + rewrite step_open_again in Hoff by exact Hs. congruence.
    + rewrite step_open in Hoff by assumption. simpl in Hoff. discriminate.
  - rewrite step_close in Hoff by exact Hc. simpl in Hoff. congruence.
  - destruct (inflight w !! id) as [[|]|] eqn:Hid.
    + rewrite step_settle_chat in Hoff by assumption.
      rewrite chat_settled_loading in Hoff. simpl in Hoff. congruence.
    + exists id, o, now. split; [reflexivity | exact Hid].
    + rewrite step_settle_unknown in Hoff by exact Hid. congruence.
Qed.

Lemma loading_cleared_in_run (w : World) (evs : list Event) :
  loadingHistory (app w) = true ->
  loadingHistory (app (run w evs)) = false ->
  exists evs1 id o now evs2,
    evs = evs1 ++ Settle id o now :: evs2
    /\ inflight (run w evs1) !! id = Some AwaitHistory.
Proof.
  revert w. induction evs as [|e rest IH]; intros w Hon Hoff.
  - simpl in Hoff. congruence.
  - rewrite run_cons in Hoff.
    destruct (loadingHistory (app (step w e))) eqn:Hstep.
    + destruct (IH _ Hstep Hoff) as (evs1 & id & o & now & evs2 & -> & Hid).
      exists (e :: evs1), id, o, now, evs2. split; [reflexivity|].
      rewrite run_cons. exact Hid.
    + destruct (loading_cleared_by w e Hon Hstep) as (id & o & now & -> & Hid).
      exists [], id, o, now, rest. split; [reflexivity | exact Hid].
Qed.

(* ===================================================================== *)
(** ** Sending a message *)
(* ===================================================================== *)

(** C2: a submitted text that is not empty after trimming appends exactly one
    user message, with sender "user" and the submitted text, and issues
    exactly one POST to the chat endpoint; the message is in the list while
    that request is still in flight. *)
Theorem submit_appends_user_message (w : World) (now : jsstring) :
  crashed w = false ->
  trim (input (app w)) <> [] ->
  messages (app (step w (Submit now)))
    = messages (app w) ++ [mkMessage (JStr (lit "user")) (JStr (input (app w))) (JStr now)]
  /\ sent (step w (Submit now)) = sent w ++ [chat_request (input (app w))]
  /\ method (chat_request (input (app w))) = lit "POST"
  /\ chat_posts (step w (Submit now)) = S (chat_posts w)
  /\ inflight (step w (Submit now)) !! next_id w = Some AwaitChat.
Proof.
  intros Hc Ht. rewrite step_submit by exact Hc. unfold sendMessage.
  destruct (trim (input (app w))) as [|c r] eqn:E; [congruence|]. simpl.
  repeat split.
  - unfold chat_posts. simpl. rewrite filter_app, length_app.
    rewrite (filter_cons _ (chat_request (input (app w)))).
    rewrite decide_True by reflexivity. simpl. lia.
  - apply lookup_insert_eq.
Qed.

Lemma submit_appends_user_message_witness :
  messages (app (step (step initial (Change (lit "hi"))) (Submit (lit "10:00"))))
    = [mkMessage (JStr (lit "user")) (JStr (lit "hi")) (JStr (lit "10:00"))]
  /\ sent (step (step initial (Change (lit "hi"))) (Submit (lit "10:00")))
     = [chat_request (lit "hi")].
Proof.
  destruct (submit_appends_user_message (step initial (Change (lit "hi"))) (lit "10:00"))
    as (Hm & Hs & _).
  - reflexivity.
  - vm_compute. discriminate.
  - split; [exact Hm | exact Hs].
Defined.

(** C3: submitting an empty or white-space-only text changes nothing: the
    session list, the requests issued and the text field stay as they are. *)
Theorem blank_submit_is_noop (w : World) (now : jsstring) :
  blank (input (app w)) = true ->
  step w (Submit now) = w
  /\ messages (app (step w (Submit now))) = messages (app w)
  /\ sent (step w (Submit now)) = sent w
  /\ input (app (step w (Submit now))) = input (app w).
Proof.
  intros Hb.
  assert (Hsame : step w (Submit now) = w).
  { destruct (crashed w) eqn:Hc.
    - apply step_crashed, Hc.
    - rewrite step_submit by exact Hc. unfold sendMessage.
      rewrite is_empty_trim, Hb. reflexivity. }
  rewrite Hsame. repeat split.
Qed.

Lemma blank_submit_is_noop_witness :
  step (step initial (Change (lit "   "))) (Submit (lit "10:00"))
    = step initial (Change (lit "   "))
  /\ sent (step (step initial (Change (lit "   "))) (Submit (lit "10:00"))) = []
  /\ input (app (step (step initial (Change (lit "   "))) (Submit (lit "10:00"))))
     = lit "   ".
Proof.
  destruct (blank_submit_is_noop (step initial (Change (lit "   "))) (lit "10:00"))
    as (Hw & _ & Hs & Hi).
  - reflexivity.
  - split; [exact Hw|]. split; [exact Hs | exact Hi].
Defined.

(* ===================================================================== *)
(** ** The reply *)
(* ===================================================================== *)

Lemma chat_settled_object (status : N) (ms : list (jsstring * JsVal))
    (now : jsstring) (w : World) :
  chat_settled (Response status (Some (JObj ms))) now w =
  update (setMessages (fun msgs => msgs ++
    [bot_message (js_or (default JUndefined (own_property ms (lit "reply"))) NO_REPLY) now])) w.
Proof. reflexivity. Qed.

(** A body that is JSON [null] is not an object: reading [reply] from it
    throws inside the updater, nothing is appended and the tree goes down. *)
Lemma chat_null_body_unmounts :
  crashed (step asked (Settle 0 (Response 200 (Some JNull)) (lit "10:01"))) = true
  /\ messages (app (step asked (Settle 0 (Response 200 (Some JNull)) (lit "10:01"))))
     = messages (app asked).
Proof. split; reflexivity. Qed.

(** An array, a string, a number or a boolean has no [reply] either, and
    gets the placeholder. *)
Lemma chat_reply_missing_any (w : World) (id : nat) (status : N) (data : JsVal)
    (now : jsstring) :
  crashed w = false ->
  inflight w !! id = Some AwaitChat ->
  absent data = false ->
  has_field data (lit "reply") = false ->
  messages (app (step w (Settle id (Response status (Some data)) now)))
  = messages (app w) ++ [bot_message NO_REPLY now].
Proof.
  intros Hc Hid Ha Hf. rewrite step_settle_chat by assumption.
  destruct data as [| |b|x|s|elems|ms]; try discriminate; try reflexivity.
  rewrite chat_settled_object. simpl in Hf |- *.
  destruct (own_property ms (lit "reply")) as [v|] eqn:E; [|reflexivity].
  apply bool_decide_eq_false in Hf. exfalso. apply Hf. eexists. reflexivity.
Qed.


Lemma submit_step_messages (w : World) (now : jsstring) :
  crashed w = false ->
  trim (input (app w)) <> [] ->
  messages (app (step w (Submit now)))
  = messages (app w) ++ [user_message (input (app w)) now].
Proof.
  intros Hc Ht. rewrite step_submit by exact Hc. unfold sendMessage.
  destruct (trim (input (app w))); [congruence | reflexivity].
Qed.

(** C1, amended: when the chat call of a submitted message succeeds with a
    JSON object whose [reply] is a non-empty string X, a bot message with
    text X is appended at the end of the session list, which holds the
    triggering user message before it; the two are adjacent when nothing else
    happened in between. *)
Theorem chat_reply_appended (w : World) (now : jsstring) (evs : list Event)
    (status : N) (ms : list (jsstring * JsVal)) (X now' : jsstring) :
  crashed w = false ->
  trim (input (app w)) <> [] ->
  crashed (run (step w (Submit now)) evs) = false ->
  inflight (run (step w (Submit now)) evs) !! next_id w = Some AwaitChat ->
  own_property ms (lit "reply") = Some (JStr X) ->
  X <> [] ->
  exists between,
    messages (app (run (step w (Submit now)) evs))
      = messages (app w) ++ user_message (input (app w)) now :: between
    /\ messages (app (step (run (step w (Submit now)) evs)
                        (Settle (next_id w) (Response status (Some (JObj ms))) now')))
      = messages (app w) ++ user_message (input (app w)) now :: between
          ++ [bot_message (JStr X) now']
    /\ (evs = [] -> between = []).
Proof.
  intros Hc Ht Hc' Hid Hr HX.
  pose proof (submit_step_messages w now Hc Ht) as Hsub.
  destruct (run_messages (step w (Submit now)) evs) as (between & Hb & _).
  exists between. split; [|split].
  - rewrite Hb, Hsub, <- app_assoc. reflexivity.
  - rewrite step_settle_chat by assumption.
    rewrite chat_settled_object, Hr. simpl.
    unfold js_or. destruct X as [|c r]; [congruence|]. simpl.
    rewrite Hb, Hsub, <- !app_assoc. reflexivity.
  - intros ->. simpl in Hb. rewrite <- (app_nil_r (messages _)) in Hb at 1.
    apply app_inv_head in Hb. congruence.
Qed.

Lemma chat_reply_appended_witness :
  exists between,
    messages (app (run (step (step initial (Change (lit "hi"))) (Submit (lit "10:00"))) []))
      = [] ++ user_message (lit "hi") (lit "10:00") :: between
    /\ messages (app (step (run (step (step initial (Change (lit "hi"))) (Submit (lit "10:00"))) [])
                        (Settle 0 (Response 200 (Some hello_reply)) (lit "10:01"))))
      = [] ++ user_message (lit "hi") (lit "10:00") :: between
          ++ [bot_message (JStr (lit "hello")) (lit "10:01")]
    /\ (@nil Event = [] -> between = []).
Proof.
  apply (chat_reply_appended (step initial (Change (lit "hi"))) (lit "10:00") []
           200 [(lit "reply", JStr (lit "hello"))] (lit "hello") (lit "10:01")).
  - reflexivity.
  - vm_compute. discriminate.
  - reflexivity.
  - reflexivity.
  - reflexivity.
  - vm_compute. discriminate.
Defined.

(** C1 as stated fails when the reply is the empty string: the placeholder is
    appended, not a message with that text. *)
Lemma empty_reply_not_echoed :
  own_property [(lit "reply", JStr [])] (lit "reply") = Some (JStr [])
  /\ messages (app (step asked (Settle 0 (Response 200 (Some empty_reply)) (lit "10:01"))))
     = [user_message (lit "hi") (lit "10:00"); bot_message NO_REPLY (lit "10:01")]
  /\ messages (app (step asked (Settle 0 (Response 200 (Some empty_reply)) (lit "10:01"))))
     <> [user_message (lit "hi") (lit "10:00"); bot_message (JStr []) (lit "10:01")].
Proof.
  split; [reflexivity|]. split; [reflexivity|].
  vm_compute. discriminate.
Qed.

(** With two submissions in flight the reply to the first one lands after the
    second user message. *)
Lemma overlapping_sends_interleave :
  messages (app (step asked_twice (Settle 0 (Response 200 (Some hello_reply)) (lit "10:01"))))
  = [user_message (lit "hi") (lit "10:00"); user_message (lit "yo") (lit "10:00");
     bot_message (JStr (lit "hello")) (lit "10:01")].
Proof. reflexivity. Qed.

(** C5, amended: a chat response whose JSON body is not null and has no
    [reply] field (an object without the member, an array, a string, a
    number or a boolean) appends a bot message with the placeholder text,
    exactly as an empty object does, and the component stays up. *)
Theorem chat_reply_missing (w : World) (id : nat) (status : N) (data : JsVal)
    (now : jsstring) :
  crashed w = false ->
  inflight w !! id = Some AwaitChat ->
  absent data = false ->
  has_field data (lit "reply") = false ->
  messages (app (step w (Settle id (Response status (Some data)) now)))
    = messages (app w) ++ [mkMessage (JStr (lit "bot")) (JStr (lit "(No reply)")) (JStr now)]
  /\ crashed (step w (Settle id (Response status (Some data)) now)) = false
  /\ step w (Settle id (Response status (Some data)) now)
     = step w (Settle id (Response status (Some (JObj []))) now).
Proof.
  intros Hc Hid Ha Hf. rewrite !step_settle_chat by assumption.
  destruct data as [| |b|x|s|elems|ms]; try discriminate;
    try (repeat split; exact Hc).
  rewrite !chat_settled_object. simpl in Hf.
  destruct (own_property ms (lit "reply")) as [v|] eqn:E.
  - apply bool_decide_eq_false in Hf. exfalso. apply Hf. eexists. reflexivity.
  - repeat split. exact Hc.
Qed.

Lemma chat_reply_missing_witness :
  messages (app (step asked (Settle 0 (Response 200 (Some no_reply)) (lit "10:01"))))
    = messages (app asked)
      ++ [mkMessage (JStr (lit "bot")) (JStr (lit "(No reply)")) (JStr (lit "10:01"))]
  /\ crashed (step asked (Settle 0 (Response 200 (Some no_reply)) (lit "10:01"))) = false
  /\ step asked (Settle 0 (Response 200 (Some no_reply)) (lit "10:01"))
     = step asked (Settle 0 (Response 200 (Some (JObj []))) (lit "10:01")).
Proof. apply chat_reply_missing; reflexivity. Defined.

(** C5 as stated fails on a body that is JSON [null]: the response is a
    success and the body has no [reply] field, yet nothing is appended. *)
Lemma null_body_gets_no_placeholder :
  response_ok (Response 200 (Some JNull)) = true
  /\ has_field JNull (lit "reply") = false
  /\ messages (app (step asked (Settle 0 (Response 200 (Some JNull)) (lit "10:01"))))
     = [user_message (lit "hi") (lit "10:00")]
  /\ messages (app (step asked (Settle 0 (Response 200 (Some JNull)) (lit "10:01"))))
     <> messages (app asked) ++ [bot_message NO_REPLY (lit "10:01")].
Proof.
  split; [reflexivity|]. split; [reflexivity|]. split; [reflexivity|].
  vm_compute. discriminate.
Qed.

(** C10: a [reply] that is present but falsy (the empty string, zero, false,
    null) is handled exactly like an absent one: the placeholder is
    appended. *)
Theorem chat_reply_falsy (w : World) (id : nat) (status : N)
    (ms : list (jsstring * JsVal)) (v : JsVal) (now : jsstring) :
  crashed w = false ->
  inflight w !! id = Some AwaitChat ->
  own_property ms (lit "reply") = Some v ->
  truthy v = false ->
  messages (app (step w (Settle id (Response status (Some (JObj ms))) now)))
    = messages (app w) ++ [mkMessage (JStr (lit "bot")) (JStr (lit "(No reply)")) (JStr now)]
  /\ step w (Settle id (Response status (Some (JObj ms))) now)
     = step w (Settle id (Response status (Some (JObj []))) now).
Proof.
  intros Hc Hid Hr Hv. rewrite !step_settle_chat by assumption.
  rewrite !chat_settled_object, Hr. simpl. unfold js_or. rewrite Hv.
  split; reflexivity.
Qed.

Lemma chat_reply_falsy_witness :
  messages (app (step asked (Settle 0 (Response 200 (Some empty_reply)) (lit "10:01"))))
    = messages (app asked)
      ++ [mkMessage (JStr (lit "bot")) (JStr (lit "(No reply)")) (JStr (lit "10:01"))]
  /\ step asked (Settle 0 (Response 200 (Some empty_reply)) (lit "10:01"))
     = step asked (Settle 0 (Response 200 (Some (JObj []))) (lit "10:01")).
Proof. apply (chat_reply_falsy asked 0 200 _ (JStr [])); reflexivity. Defined.

(* ===================================================================== *)
(** ** A failing chat call *)
(* ===================================================================== *)

(** C4, amended: when the chat call fails with a network error, or its
    response body is not JSON text, a bot message with the fixed error text
    is appended and no exception leaves the component; the status of a
    response is never looked at, so a non-OK response with a JSON body is
    handled like an OK one. *)
Theorem chat_failure_reported (w : World) (id : nat) (o : FetchOutcome)
    (now : jsstring) :
  crashed w = false ->
  inflight w !! id = Some AwaitChat ->
  (o = NetworkError \/ exists status, o = Response status None) ->
  messages (app (step w (Settle id o now)))
    = messages (app w)
      ++ [mkMessage (JStr (lit "bot")) (JStr (lit "Error: Could not reach backend."))
            (JStr now)]
  /\ crashed (step w (Settle id o now)) = false
  /\ (forall status status' json,
        step w (Settle id (Response status json) now)
        = step w (Settle id (Response status' json) now)).
Proof.
  intros Hc Hid Ho. split; [|split].
  - rewrite step_settle_chat by assumption.
    destruct Ho as [-> | [status ->]]; reflexivity.
  - rewrite step_settle_chat by assumption.
    destruct Ho as [-> | [status ->]]; simpl; exact Hc.
  - intros status status' json. rewrite !step_settle_chat by assumption.
    reflexivity.
Qed.

Lemma chat_failure_reported_witness :
  messages (app (step asked (Settle 0 NetworkError (lit "10:01"))))
    = messages (app asked)
      ++ [mkMessage (JStr (lit "bot")) (JStr (lit "Error: Could not reach backend."))
            (JStr (lit "10:01"))]
  /\ crashed (step asked (Settle 0 NetworkError (lit "10:01"))) = false
  /\ (forall status status' json,
        step asked (Settle 0 (Response status json) (lit "10:01"))
        = step asked (Settle 0 (Response status' json) (lit "10:01"))).
Proof.
  apply chat_failure_reported; [reflexivity | reflexivity | left; reflexivity].
Defined.

(** C4 as stated fails on a non-OK response that carries JSON: status 500
    with an error object gets the placeholder, not the error text. *)
Lemma non_ok_json_not_reported :
  response_ok (Response 500 (Some json_error)) = false
  /\ messages (app (step asked (Settle 0 (Response 500 (Some json_error)) (lit "10:01"))))
     = [user_message (lit "hi") (lit "10:00"); bot_message NO_REPLY (lit "10:01")]
  /\ messages (app (step asked (Settle 0 (Response 500 (Some json_error)) (lit "10:01"))))
     <> messages (app asked) ++ [bot_message BACKEND_ERROR (lit "10:01")].
Proof.
  split; [reflexivity|]. split; [reflexivity|].
  vm_compute. discriminate.
Qed.

(* ===================================================================== *)
(** ** The history panel *)
(* ===================================================================== *)

Lemma history_settled_object (status : N) (ms : list (jsstring * JsVal)) (w : World) :
  history_settled (Response status (Some (JObj ms))) w =
  update (setLoadingHistory false)
    (update (setHistory (js_or (default JUndefined (own_property ms (lit "history"))) (JArr []))) w).
Proof. reflexivity. Qed.

Lemma history_row_absent (msg : JsVal) :
  absent msg = true -> history_row msg = Throw.
Proof. destruct msg; simpl; intros H; try discriminate; reflexivity. Qed.

Lemma history_rows_absent (entries : list JsVal) :
  Exists (fun msg => absent msg = true) entries -> history_rows entries = Throw.
Proof.
  induction 1 as [msg rest H | msg rest _ IH]; simpl.
  - rewrite history_row_absent by exact H. reflexivity.
  - rewrite IH. destruct (history_row msg); reflexivity.
Qed.

Lemma history_rows_length (entries : list JsVal) (rows : list HistoryRow) :
  history_rows entries = Normal rows -> length rows = length entries.
Proof.
  revert rows. induction entries as [|msg rest IH]; intros rows H; simpl in H.
  - injection H as <-. reflexivity.
  - destruct (history_row msg) as [row|]; [|discriminate].
    destruct (history_rows rest) as [rows0|]; [|discriminate].
    injection H as <-. simpl. rewrite (IH rows0); reflexivity.
Qed.

(** A settling request does not touch [showHistory], so no effect follows
    it: with its renders, the event unmounts the tree as soon as the state it
    leaves cannot be rendered. *)
Lemma live_settle_history_throws (w : World) (id : nat) (o : FetchOutcome)
    (now : jsstring) :
  crashed w = false ->
  inflight w !! id = Some AwaitHistory ->
  historyPanel (app (step w (Settle id o now))) = RenderThrows ->
  crashed (live_step w (Settle id o now)) = true.
Proof.
  intros Hc Hid Hp. rewrite step_settle_history in Hp by assumption.
  assert (Hdown : committed (history_settled o (settle id w))
                  = crash (history_settled o (settle id w))).
  { unfold committed, renders. rewrite Hp, andb_false_r. reflexivity. }
  unfold live_step. rewrite Hc. simpl handle. rewrite Hid, Hdown.
  reflexivity.
Qed.

(** C6, amended: an open transition issues exactly one GET to the history
    endpoint and switches the loading indicator on; the indicator stays on
    until some history request settles; when the request settles with a JSON
    body that is not null, the stored list is replaced by the body's
    [history] field if that is truthy and by the empty list otherwise,
    whatever the list held before.  The panel then shows the empty line for
    the empty list and the entries for a list whose entries can all be
    rendered; a truthy field that is a string, a number or a boolean, or a
    list with a null entry, makes the render throw, which unmounts the
    tree. *)
Theorem history_open_fetches_and_replaces (w : World) :
  crashed w = false ->
  showHistory (app w) = false ->
  (sent (step w ClickHistory) = sent w ++ [history_request]
   /\ method history_request = lit "GET"
   /\ inflight (step w ClickHistory) !! next_id w = Some AwaitHistory
   /\ loadingHistory (app (step w ClickHistory)) = true
   /\ historyPanel (app (step w ClickHistory)) = Loading)
  /\ (forall evs,
        loadingHistory (app (run (step w ClickHistory) evs)) = false ->
        exists evs1 id o now evs2,
          evs = evs1 ++ Settle id o now :: evs2
          /\ inflight (run (step w ClickHistory) evs1) !! id = Some AwaitHistory)
  /\ (forall evs status data h now,
        crashed (run (step w ClickHistory) evs) = false ->
        inflight (run (step w ClickHistory) evs) !! next_id w = Some AwaitHistory ->
        get_member data (lit "history") = Normal h ->
        let before := run (step w ClickHistory) evs in
        let response := Settle (next_id w) (Response status (Some data)) now in
        history (app (step before response)) = (if truthy h then h else JArr [])
        /\ loadingHistory (app (step before response)) = false
        /\ (truthy h = false ->
            historyPanel (app (step before response)) = NoHistoryYet)
        /\ (forall entries rows,
              h = JArr entries -> entries <> [] ->
              history_rows entries = Normal rows ->
              forallb row_shown rows = true ->
              historyPanel (app (step before response)) = Entries entries
              /\ length rows = length entries)
        /\ (forall entries,
              h = JArr entries ->
              Exists (fun msg => absent msg = true) entries ->
              historyPanel (app (step before response)) = RenderThrows)
        /\ (truthy h = true ->
            (exists s, h = JStr s) \/ (exists x, h = JNum x) \/ (exists b, h = JBool b) ->
            historyPanel (app (step before response)) = RenderThrows)
        /\ (historyPanel (app (step before response)) = RenderThrows ->
            crashed (live_step before response) = true)).
Proof.
  intros Hc Hs. split; [|split].
  - rewrite step_open by assumption. repeat split. apply lookup_insert_eq.
  - intros evs Hoff. apply loading_cleared_in_run; [|exact Hoff].
    rewrite step_open by assumption. reflexivity.
  - intros evs status data h now Hc' Hid Hh before response.
    assert (Hstep : step before response
      = update (setLoadingHistory false)
          (update (setHistory (js_or h (JArr []))) (settle (next_id w) before))).
    { unfold response. rewrite step_settle_history by assumption.
      unfold history_settled. rewrite Hh. reflexivity. }
    split; [rewrite Hstep; reflexivity|].
    split; [rewrite Hstep; reflexivity|].
    split; [|split; [|split; [|split]]].
    + intros Hf. rewrite Hstep. unfold historyPanel, js_or.
      cbn [app update setLoadingHistory setHistory history loadingHistory].
      rewrite Hf. reflexivity.
    + intros entries rows -> Hne Hrows Hshown. split.
      * rewrite Hstep. unfold historyPanel, js_or.
        cbn [app update setLoadingHistory setHistory history loadingHistory truthy].
        destruct entries as [|e es]; [congruence|].
        rewrite Hrows, Hshown. reflexivity.
      * apply history_rows_length, Hrows.
    + intros entries -> Habs. rewrite Hstep. unfold historyPanel, js_or.
      cbn [app update setLoadingHistory setHistory history loadingHistory truthy].
      destruct entries as [|e es]; [inversion Habs|].
      rewrite history_rows_absent by exact Habs. reflexivity.
    + intros Ht Hkind. rewrite Hstep. unfold historyPanel, js_or.
      cbn [app update setLoadingHistory setHistory history loadingHistory].
      rewrite Ht.
      destruct Hkind as [[s ->] | [[x ->] | [b ->]]].
      * destruct s; [discriminate | reflexivity].
      * reflexivity.
      * reflexivity.
    + intros Hp. apply live_settle_history_throws; assumption.
Qed.

Lemma history_open_fetches_and_replaces_witness :
  sent (step initial ClickHistory) = sent initial ++ [history_request]
  /\ loadingHistory (app (step initial ClickHistory)) = true
  /\ history (app (step (run (step initial ClickHistory) [])
                        (Settle 0 (Response 200 (Some one_entry)) [])))
     = JArr [hi_entry]
  /\ historyPanel (app (step (run (step initial ClickHistory) [])
                        (Settle 0 (Response 200 (Some one_entry)) [])))
     = Entries [hi_entry].
Proof.
  destruct (history_open_fetches_and_replaces initial) as ((Hs & _ & _ & Hl & _) & _ & Hr).
  - reflexivity.
  - reflexivity.
  - split; [exact Hs|]. split; [exact Hl|].
    destruct (Hr [] 200 one_entry (JArr [hi_entry]) [])
      as (Hh & _ & _ & Hshow & _).
    + reflexivity.
    + reflexivity.
    + reflexivity.
    + split; [exact Hh|].
      destruct (Hshow [hi_entry]
        [mkHistoryRow (lit "bg-blue-200") PERSON (lit "You")
           (JStr (lit "hi")) (JStr (lit "10:00"))]) as [Hp _].
      * reflexivity.
      * discriminate.
      * reflexivity.
      * reflexivity.
      * exact Hp.
Defined.

(** C6 as stated fails on a malformed field: a [history] that is a string,
    not a list, is stored as it is, and the panel cannot render it. *)
Lemma malformed_history_kept :
  history (app (step opened (Settle 0 (Response 200 (Some malformed_history)) [])))
    = JStr (lit "oops")
  /\ history (app (step opened (Settle 0 (Response 200 (Some malformed_history)) [])))
     <> JArr []
  /\ historyPanel (app (step opened (Settle 0 (Response 200 (Some malformed_history)) [])))
     = RenderThrows.
Proof.
  split; [reflexivity|]. split; [|reflexivity].
  vm_compute. discriminate.
Qed.

(** With two opens in flight the first response switches the indicator off
    while the second request is still waiting. *)
Lemma overlapping_opens_clear_early :
  loadingHistory (app (run initial
    [ClickHistory; ClickClose; ClickHistory; Settle 0 NetworkError []])) = false
  /\ inflight (run initial
    [ClickHistory; ClickClose; ClickHistory; Settle 0 NetworkError []]) !! 1%nat
     = Some AwaitHistory.
Proof. split; reflexivity. Qed.

(** C7, amended: when a history fetch fails, the loading indicator is
    cleared, the history list is left as it was (so empty if it was empty),
    nothing is added to the session list, and no exception leaves the
    component. *)
Theorem history_failure_silent (w : World) (id : nat) (o : FetchOutcome)
    (now : jsstring) :
  crashed w = false ->
  inflight w !! id = Some AwaitHistory ->
  (o = NetworkError \/ (exists status, o = Response status None)
   \/ exists status, o = Response status (Some JNull)) ->
  loadingHistory (app (step w (Settle id o now))) = false
  /\ history (app (step w (Settle id o now))) = history (app w)
  /\ messages (app (step w (Settle id o now))) = messages (app w)
  /\ crashed (step w (Settle id o now)) = false
  /\ (history (app w) = JArr [] ->
      historyPanel (app (step w (Settle id o now))) = NoHistoryYet).
Proof.
  intros Hc Hid Ho. rewrite step_settle_history by assumption.
  destruct Ho as [-> | [[status ->] | [status ->]]]; simpl;
    (repeat split; try exact Hc);
    intros Hh; unfold historyPanel; simpl; rewrite Hh; reflexivity.
Qed.

Lemma history_failure_silent_witness :
  loadingHistory (app (step opened (Settle 0 NetworkError []))) = false
  /\ history (app (step opened (Settle 0 NetworkError []))) = history (app opened)
  /\ messages (app (step opened (Settle 0 NetworkError []))) = messages (app opened)
  /\ crashed (step opened (Settle 0 NetworkError [])) = false
  /\ (history (app opened) = JArr [] ->
      historyPanel (app (step opened (Settle 0 NetworkError []))) = NoHistoryYet).
Proof.
  apply history_failure_silent; [reflexivity | reflexivity | left; reflexivity].
Defined.

(** C7 as stated fails after an earlier successful fetch: the failed one
    leaves the old entries on display. *)
Lemma failed_fetch_keeps_old_list :
  history (app (step reopened (Settle 1 NetworkError []))) = JArr [hi_entry]
  /\ history (app (step reopened (Settle 1 NetworkError []))) <> JArr []
  /\ historyPanel (app (step reopened (Settle 1 NetworkError [])))
     = Entries [hi_entry].
Proof.
  split; [reflexivity|]. split; [|reflexivity].
  vm_compute. discriminate.
Qed.

(** C8: along any run the number of requests to the history endpoint grows
    by the number of open transitions, so from the mounted component the two
    are equal; and the requests issued never depend on what the history cell
    holds, so no earlier result stands in for a fetch. *)
Theorem history_fetch_per_open (w : World) (evs : list Event) (h : JsVal) :
  history_fetches (run w evs) = (history_fetches w + open_transitions w evs)%nat
  /\ history_fetches (run initial evs) = open_transitions initial evs
  /\ sent (run (update (setHistory h) w) evs) = sent (run w evs).
Proof.
  split; [|split].
  - apply run_history_fetches.
  - rewrite run_history_fetches. reflexivity.
  - apply same_but_history_sent, same_but_history_run, same_but_history_set.
Qed.

(** C9: the session list is append-only: whatever happens, the list after is
    the list before followed by new messages, so every message stays at its
    position, and each new message has sender "user" or "bot" and a text and
    a timestamp that are there. *)
Theorem session_list_append_only (w : World) (evs : list Event) :
  (exists appended,
     messages (app (run w evs)) = messages (app w) ++ appended
     /\ Forall (fun m =>
          (sender m = JStr (lit "user") \/ sender m = JStr (lit "bot"))
          /\ absent (text m) = false
          /\ absent (timestamp m) = false) appended)
  /\ (forall (i : nat) (m : Message),
        messages (app w) !! i = Some m ->
        messages (app (run w evs)) !! i = Some m)
  /\ (forall e : Event,
        (length (messages (app (step w e))) <= S (length (messages (app w))))%nat).
Proof.
  destruct (run_messages w evs) as (appended & Happ & Hwf).
  split; [|split].
  - exists appended. split; [exact Happ | exact Hwf].
  - intros i m Hi. rewrite Happ. apply lookup_app_l_Some, Hi.
  - intros e. destruct (step_messages w e) as (one & Hone & _ & Hlen).
    rewrite Hone, length_app. lia.
Qed.

(* ===================================================================== *)
(** ** The composer *)
(* ===================================================================== *)

Lemma run_snoc (w : World) (evs : list Event) (e : Event) :
  run w (evs ++ [e]) = step (run w evs) e.
Proof. unfold run. rewrite fold_left_app. reflexivity. Qed.

Lemma run_append (w : World) (evs evs' : list Event) :
  run w (evs ++ evs') = run (run w evs) evs'.
Proof. apply fold_left_app. Qed.

Lemma sendMessage_accepts (w : World) (now : jsstring) :
  trim (input (app w)) <> [] ->
  sendMessage now w =
  fetch (chat_request (input (app w))) AwaitChat
    (update (setInput [])
       (update (setMessages (fun msgs => msgs ++ [user_message (input (app w)) now])) w)).
Proof.
  intros Ht. unfold sendMessage.
  destruct (trim (input (app w))); [congruence | reflexivity].
Qed.

(** After an accepted submission the field is empty, so submitting again at
    once (a second Enter, a double click on Send) changes nothing: one
    message, one request. *)
Theorem double_submit_sends_once (w : World) (now now' : jsstring) :
  crashed w = false ->
  trim (input (app w)) <> [] ->
  input (app (step w (Submit now))) = []
  /\ step (step w (Submit now)) (Submit now') = step w (Submit now).
Proof.
  intros Hc Ht. rewrite step_submit by exact Hc.
  rewrite sendMessage_accepts by exact Ht.
  split; [reflexivity|].
  rewrite step_submit by exact Hc. reflexivity.
Qed.

Lemma double_submit_sends_once_witness :
  input (app (step (step initial (Change (lit "hi"))) (Submit (lit "10:00")))) = []
  /\ step (step (step initial (Change (lit "hi"))) (Submit (lit "10:00"))) (Submit (lit "10:00"))
     = step (step initial (Change (lit "hi"))) (Submit (lit "10:00")).
Proof.
  apply double_submit_sends_once; [reflexivity | vm_compute; discriminate].
Defined.

Lemma run_changes (w : World) (drafts : list jsstring) :
  crashed w = false ->
  exists value, run w (map Change drafts) = update (setInput value) w.
Proof.
  intros Hc. revert w Hc. induction drafts as [|d rest IH]; intros w Hc.
  - exists (input (app w)). destruct w as [[ms i s h l] c n f r]. reflexivity.
  - simpl map. rewrite run_cons, step_change by exact Hc.
    destruct (IH (update (setInput d) w) Hc) as (value & Hv).
    exists value. rewrite Hv. reflexivity.
Qed.

(** Keystrokes stay in the field: however the text was edited, only the value
    the field holds at submission is appended and posted, and nothing leaves
    before the submission. *)
Theorem typed_text_is_sent (w : World) (drafts : list jsstring)
    (value now : jsstring) :
  crashed w = false ->
  trim value <> [] ->
  sent (run w (map Change drafts)) = sent w
  /\ messages (app (run w (map Change drafts))) = messages (app w)
  /\ messages (app (run w (map Change drafts ++ [Change value; Submit now])))
     = messages (app w) ++ [user_message value now]
  /\ sent (run w (map Change drafts ++ [Change value; Submit now]))
     = sent w ++ [chat_request value].
Proof.
  intros Hc Ht. destruct (run_changes w drafts Hc) as (v & Hv).
  rewrite run_append, Hv. split; [reflexivity|]. split; [reflexivity|].
  rewrite !run_cons. simpl run.
  rewrite step_change by exact Hc. rewrite step_submit by exact Hc.
  rewrite sendMessage_accepts by exact Ht. split; reflexivity.
Qed.

Lemma typed_text_is_sent_witness :
  sent (run initial (map Change [lit "h"; lit "hu"; lit "h"])) = sent initial
  /\ messages (app (run initial (map Change [lit "h"; lit "hu"; lit "h"])))
     = messages (app initial)
  /\ messages (app (run initial (map Change [lit "h"; lit "hu"; lit "h"]
                                  ++ [Change (lit "hi"); Submit (lit "10:00")])))
     = messages (app initial) ++ [user_message (lit "hi") (lit "10:00")]
  /\ sent (run initial (map Change [lit "h"; lit "hu"; lit "h"]
                                  ++ [Change (lit "hi"); Submit (lit "10:00")]))
     = sent initial ++ [chat_request (lit "hi")].
Proof.
  apply typed_text_is_sent; [reflexivity | vm_compute; discriminate].
Defined.

(* ===================================================================== *)
(** ** What a settling request leaves alone *)
(* ===================================================================== *)

Lemma chat_settled_input (o : FetchOutcome) (now : jsstring) (w : World) :
  input (app (chat_settled o now w)) = input (app w)
  /\ next_id (chat_settled o now w) = next_id w.
Proof.
  unfold chat_settled. destruct o as [|status [data|]]; try (split; reflexivity).
  destruct (get_member data _); split; reflexivity.
Qed.

Lemma history_settled_input (o : FetchOutcome) (w : World) :
  input (app (history_settled o w)) = input (app w)
  /\ next_id (history_settled o w) = next_id w.
Proof.
  unfold history_settled. destruct o as [|status [data|]]; try (split; reflexivity).
  destruct (get_member data _); split; reflexivity.
Qed.

(** No retry and no interference with the composer: whatever the outcome, a
    settling request issues no request, leaves the text being typed as it is,
    and neither opens nor closes the panel. *)
Theorem settling_sends_nothing (w : World) (id : nat) (o : FetchOutcome)
    (now : jsstring) :
  sent (step w (Settle id o now)) = sent w
  /\ input (app (step w (Settle id o now))) = input (app w)
  /\ showHistory (app (step w (Settle id o now))) = showHistory (app w).
Proof.
  destruct (crashed w) eqn:Hc.
  { rewrite step_crashed by exact Hc. repeat split. }
  destruct (inflight w !! id) as [[|]|] eqn:Hid.
  - rewrite step_settle_chat by assumption.
    rewrite chat_settled_sent, chat_settled_show.
    destruct (chat_settled_input o now (settle id w)) as [-> _]. repeat split.
  - rewrite step_settle_history by assumption.
    rewrite history_settled_sent, history_settled_show.
    destruct (history_settled_input o (settle id w)) as [-> _]. repeat split.
  - rewrite step_settle_unknown by exact Hid. repeat split.
Qed.

(* ===================================================================== *)
(** ** Opening and closing *)
(* ===================================================================== *)

Lemma history_settled_crashed (o : FetchOutcome) (w : World) :
  crashed (history_settled o w) = crashed w.
Proof.
  unfold history_settled. destruct o as [|status [data|]]; try reflexivity.
  destruct (get_member data _); reflexivity.
Qed.

(** Closing the panel cancels nothing: the response of a history request is
    applied all the same, and it makes no difference whether the panel is
    closed before or after the response arrives. *)
Theorem close_does_not_cancel (w : World) (id : nat) (o : FetchOutcome)
    (now : jsstring) :
  crashed w = false ->
  inflight w !! id = Some AwaitHistory ->
  step (step w ClickClose) (Settle id o now)
    = step (step w (Settle id o now)) ClickClose
  /\ history (app (step (step w ClickClose) (Settle id o now)))
     = history (app (step w (Settle id o now)))
  /\ sent (step w ClickClose) = sent w.
Proof.
  intros Hc Hid.
  assert (Hc' : crashed (step w (Settle id o now)) = false).
  { rewrite step_settle_history by assumption.
    rewrite history_settled_crashed. exact Hc. }
  rewrite (step_close _ Hc'). rewrite (step_close _ Hc).
  rewrite !step_settle_history by assumption.
  unfold history_settled.
  destruct o as [|status [data|]]; try (repeat split; reflexivity).
  destruct (get_member data (lit "history")); repeat split; reflexivity.
Qed.

Lemma close_does_not_cancel_witness :
  step (step opened ClickClose) (Settle 0 (Response 200 (Some one_entry)) [])
    = step (step opened (Settle 0 (Response 200 (Some one_entry)) [])) ClickClose
  /\ history (app (step (step opened ClickClose) (Settle 0 (Response 200 (Some one_entry)) [])))
     = history (app (step opened (Settle 0 (Response 200 (Some one_entry)) [])))
  /\ sent (step opened ClickClose) = sent opened.
Proof. apply close_does_not_cancel; reflexivity. Defined.

(** Clicking the history button again while the panel is open does nothing:
    any number of clicks opens the panel once and fetches once. *)
Theorem repeated_open_fetches_once (w : World) (n : nat) :
  crashed w = false ->
  showHistory (app w) = false ->
  run w (repeat ClickHistory (S n)) = step w ClickHistory
  /\ sent (run w (repeat ClickHistory (S n))) = sent w ++ [history_request].
Proof.
  intros Hc Hs.
  assert (Hrun : run w (repeat ClickHistory (S n)) = step w ClickHistory).
  { simpl repeat. rewrite run_cons.
    assert (Hopen : showHistory (app (step w ClickHistory)) = true).
    { rewrite step_open by assumption. reflexivity. }
    induction n as [|n IH]; [reflexivity|].
    simpl repeat. rewrite run_cons, step_open_again by exact Hopen. exact IH. }
  rewrite Hrun. split; [reflexivity|].
  rewrite step_open by assumption. reflexivity.
Qed.

Lemma repeated_open_fetches_once_witness :
  run initial (repeat ClickHistory 4) = step initial ClickHistory
  /\ sent (run initial (repeat ClickHistory 4)) = sent initial ++ [history_request].
Proof. apply (repeated_open_fetches_once initial 3); reflexivity. Defined.

(* ===================================================================== *)
(** ** Invariants of the mounted component *)
(* ===================================================================== *)

Lemma fresh_initial : fresh initial.
Proof. intros id k H. simpl in H. rewrite lookup_empty in H. discriminate. Qed.

Lemma fresh_fetch (r : Request) (k : Continuation) (w : World) :
  fresh w -> fresh (fetch r k w).
Proof.
  intros Hf id k' H. unfold fetch in H |- *. simpl in *.
  apply lookup_insert_Some in H as [[<- _] | [_ H]]; [lia|].
  apply Hf in H. lia.
Qed.

Lemma fresh_same (w w' : World) :
  next_id w' = next_id w ->
  (forall id k, inflight w' !! id = Some k -> inflight w !! id = Some k) ->
  fresh w -> fresh w'.
Proof. intros Hn Hsub Hf id k H. rewrite Hn. eapply Hf, Hsub, H. Qed.

Lemma chat_settled_inflight (o : FetchOutcome) (now : jsstring) (w : World) :
  inflight (chat_settled o now w) = inflight w.
Proof.
  unfold chat_settled. destruct o as [|status [data|]]; try reflexivity.
  destruct (get_member data _); reflexivity.
Qed.

Lemma history_settled_inflight (o : FetchOutcome) (w : World) :
  inflight (history_settled o w) = inflight w.
Proof.
  unfold history_settled. destruct o as [|status [data|]]; try reflexivity.
  destruct (get_member data _); reflexivity.
Qed.

Lemma fresh_step (w : World) (e : Event) : fresh w -> fresh (step w e).
Proof.
  intros Hf. destruct (crashed w) eqn:Hc.
  { rewrite step_crashed by exact Hc. exact Hf. }
  destruct e as [value|now| | |id o now].
  - rewrite step_change by exact Hc. exact Hf.
  - rewrite step_submit by exact Hc. unfold sendMessage.
    destruct (is_empty _); [exact Hf|]. apply fresh_fetch. exact Hf.
  - destruct (showHistory (app w)) eqn:Hs.
    + rewrite step_open_again by exact Hs. exact Hf.
    + rewrite step_open by assumption. apply fresh_fetch. exact Hf.
  - rewrite step_close by exact Hc. exact Hf.
  - destruct (inflight w !! id) as [[|]|] eqn:Hid.
    + rewrite step_settle_chat by assumption.
      apply (fresh_same w); [apply (chat_settled_input o now (settle id w))| |exact Hf].
      intros id' k. rewrite chat_settled_inflight. simpl.
      intros H. apply lookup_delete_Some in H as [_ H]. exact H.
    + rewrite step_settle_history by assumption.
      apply (fresh_same w); [apply (history_settled_input o (settle id w))| |exact Hf].
      intros id' k. rewrite history_settled_inflight. simpl.
      intros H. apply lookup_delete_Some in H as [_ H]. exact H.
    + rewrite step_settle_unknown by exact Hid. exact Hf.
Qed.

Lemma fresh_run (w : World) (evs : list Event) : fresh w -> fresh (run w evs).
Proof.
  revert w. induction evs as [|e rest IH]; intros w Hf; [exact Hf|].
  rewrite run_cons. apply IH, fresh_step, Hf.
Qed.

Lemma fresh_next (w : World) : fresh w -> inflight w !! next_id w = None.
Proof.
  intros Hf. destruct (inflight w !! next_id w) as [k|] eqn:E; [|reflexivity].
  apply Hf in E. lia.
Qed.

Lemma history_settled_loading (o : FetchOutcome) (w : World) :
  loadingHistory (app (history_settled o w)) = false.
Proof.
  unfold history_settled. destruct o as [|status [data|]]; try reflexivity.
  destruct (get_member data _); reflexivity.
Qed.

Lemma loading_pending_step (w : World) (e : Event) :
  fresh w ->
  (loadingHistory (app w) = true -> exists id, inflight w !! id = Some AwaitHistory) ->
  loadingHistory (app (step w e)) = true ->
  exists id, inflight (step w e) !! id = Some AwaitHistory.
Proof.
  intros Hf Hinv. destruct (crashed w) eqn:Hc.
  { rewrite step_crashed by exact Hc. exact Hinv. }
  destruct e as [value|now| | |id o now].
  - rewrite step_change by exact Hc. exact Hinv.
  - rewrite step_submit by exact Hc. unfold sendMessage.
    destruct (is_empty _); [exact Hinv|]. simpl. intros Hl.
    destruct (Hinv Hl) as (id & Hid). exists id.
    rewrite lookup_insert_ne; [exact Hid|].
    intros <-. rewrite fresh_next in Hid by exact Hf. discriminate.
  - destruct (showHistory (app w)) eqn:Hs.
    + rewrite step_open_again by exact Hs. exact Hinv.
    + rewrite step_open by assumption. intros _. exists (next_id w).
      apply lookup_insert_eq.
  - rewrite step_close by exact Hc. exact Hinv.
  - destruct (inflight w !! id) as [[|]|] eqn:Hid.
    + rewrite step_settle_chat by assumption.
      rewrite chat_settled_loading, chat_settled_inflight. simpl. intros Hl.
      destruct (Hinv Hl) as (id' & Hid'). exists id'.
      rewrite lookup_delete_ne; [exact Hid'|]. intros <-. congruence.
    + rewrite step_settle_history by assumption.
      rewrite history_settled_loading. discriminate.
    + rewrite step_settle_unknown by exact Hid. exact Hinv.
Qed.

(** The loading line is only ever shown while a history request is waiting
    for the network. *)
Theorem loading_has_pending_request (evs : list Event) :
  loadingHistory (app (run initial evs)) = true ->
  exists id, inflight (run initial evs) !! id = Some AwaitHistory.
Proof.
  induction evs as [|e rest IH] using rev_ind.
  - discriminate.
  - rewrite run_snoc. apply loading_pending_step.
    + apply fresh_run, fresh_initial.
    + exact IH.
Qed.

Lemma loading_has_pending_request_witness :
  exists id, inflight (run initial [ClickHistory; Change (lit "hi"); Submit (lit "10:00")]) !! id
             = Some AwaitHistory.
Proof.
  apply (loading_has_pending_request [ClickHistory; Change (lit "hi"); Submit (lit "10:00")]).
  reflexivity.
Defined.

(** The history cell never holds a falsy value, so never [null] or
    [undefined]: reading [history.length] cannot throw. *)
Theorem history_stays_truthy (w : World) (evs : list Event) :
  truthy (history (app w)) = true ->
  truthy (history (app (run w evs))) = true.
Proof.
  revert w. induction evs as [|e rest IH]; intros w Ht; [exact Ht|].
  rewrite run_cons. apply IH.
  destruct (crashed w) eqn:Hc.
  { rewrite step_crashed by exact Hc. exact Ht. }
  destruct e as [value|now| | |id o now].
  - rewrite step_change by exact Hc. exact Ht.
  - rewrite step_submit by exact Hc. unfold sendMessage.
    destruct (is_empty _); exact Ht.
  - destruct (showHistory (app w)) eqn:Hs.
    + rewrite step_open_again by exact Hs. exact Ht.
    + rewrite step_open by assumption. exact Ht.
  - rewrite step_close by exact Hc. exact Ht.
  - destruct (inflight w !! id) as [[|]|] eqn:Hid.
    + rewrite step_settle_chat by assumption. unfold chat_settled.
      destruct o as [|status [data|]]; try exact Ht.
      destruct (get_member data _); exact Ht.
    + rewrite step_settle_history by assumption. unfold history_settled.
      destruct o as [|status [data|]]; try exact Ht.
      destruct (get_member data _) as [h|]; [|exact Ht].
      simpl. unfold js_or. destruct (truthy h) eqn:E; [exact E | reflexivity].
    + rewrite step_settle_unknown by exact Hid. exact Ht.
Qed.

Lemma history_stays_truthy_witness :
  truthy (history (app (run initial
    [ClickHistory; Settle 0 (Response 200 (Some (JObj [(lit "history", JNull)]))) []]))) = true.
Proof. apply history_stays_truthy. reflexivity. Defined.

(* ===================================================================== *)
(** ** Requests in flight *)
(* ===================================================================== *)

Lemma awaiting_fetch (k k' : Continuation) (r : Request) (w : World) :
  fresh w ->
  awaiting k (fetch r k' w)
  = (awaiting k w + (if decide (k' = k) then 1 else 0))%nat.
Proof.
  intros Hf. unfold awaiting, fetch. simpl.
  pose proof (fresh_next w Hf) as Hnone.
  destruct (decide (k' = k)) as [->|Hne].
  - rewrite map_filter_insert_True by reflexivity.
    rewrite map_size_insert_None; [lia|].
    apply map_lookup_filter_None_2. left. exact Hnone.
  - rewrite map_filter_insert_not' ; [lia | exact Hne |].
    intros y Hy. congruence.
Qed.

Lemma awaiting_settle (k k' : Continuation) (id : nat) (w : World) :
  inflight w !! id = Some k' ->
  (awaiting k (settle id w) + (if decide (k' = k) then 1 else 0))%nat
  = awaiting k w.
Proof.
  intros Hid. unfold awaiting, settle. simpl.
  destruct (decide (k' = k)) as [->|Hne].
  - rewrite map_filter_delete.
    assert (Hin : filter (fun p : nat * Continuation => p.2 = k) (inflight w) !! id = Some k).
    { apply map_lookup_filter_Some. split; [exact Hid | reflexivity]. }
    rewrite map_size_delete_Some by (eexists; exact Hin).
    assert (size (filter (fun p : nat * Continuation => p.2 = k) (inflight w)) <> 0)%nat.
    { intros Hz. apply map_size_empty_inv in Hz. rewrite Hz, lookup_empty in Hin.
      discriminate. }
    lia.
  - rewrite map_filter_delete_not; [lia|].
    intros y Hy. simpl. congruence.
Qed.

Lemma awaiting_chat_settled (k : Continuation) (o : FetchOutcome) (now : jsstring)
    (w : World) :
  awaiting k (chat_settled o now w) = awaiting k w.
Proof. unfold awaiting. rewrite chat_settled_inflight. reflexivity. Qed.

Lemma awaiting_history_settled (k : Continuation) (o : FetchOutcome) (w : World) :
  awaiting k (history_settled o w) = awaiting k w.
Proof. unfold awaiting. rewrite history_settled_inflight. reflexivity. Qed.

Lemma sent_by_app (who : jsstring) (ms ms' : list Message) :
  sent_by who (ms ++ ms') = sent_by who ms ++ sent_by who ms'.
Proof. apply List.filter_app. Qed.

Lemma chat_settled_counts (o : FetchOutcome) (now : jsstring) (w : World) :
  sent_by (lit "user") (messages (app (chat_settled o now w)))
    = sent_by (lit "user") (messages (app w))
  /\ (length (sent_by (lit "bot") (messages (app (chat_settled o now w))))
      <= S (length (sent_by (lit "bot") (messages (app w)))))%nat
  /\ (crashed w = false -> crashed (chat_settled o now w) = false ->
      length (sent_by (lit "bot") (messages (app (chat_settled o now w))))
      = S (length (sent_by (lit "bot") (messages (app w))))).
Proof.
  unfold chat_settled.
  destruct o as [|status [data|]]; simpl.
  - rewrite !sent_by_app, length_app, app_nil_r. simpl. repeat split; lia.
  - destruct (get_member data (lit "reply")) as [reply|]; simpl.
    + rewrite !sent_by_app, length_app, app_nil_r. simpl. repeat split; lia.
    + repeat split; [lia | discriminate].
  - rewrite !sent_by_app, length_app, app_nil_r. simpl. repeat split; lia.
Qed.

Lemma balance_step (w : World) (e : Event) :
  fresh w ->
  ((length (sent_by (lit "bot") (messages (app w))) + awaiting AwaitChat w
    <= length (sent_by (lit "user") (messages (app w))))%nat
   /\ (crashed w = false ->
       (length (sent_by (lit "bot") (messages (app w))) + awaiting AwaitChat w)%nat
       = length (sent_by (lit "user") (messages (app w))))) ->
  (length (sent_by (lit "bot") (messages (app (step w e)))) + awaiting AwaitChat (step w e)
    <= length (sent_by (lit "user") (messages (app (step w e)))))%nat
  /\ (crashed (step w e) = false ->
      (length (sent_by (lit "bot") (messages (app (step w e)))) + awaiting AwaitChat (step w e))%nat
      = length (sent_by (lit "user") (messages (app (step w e))))).
Proof.
  intros Hf Hinv. destruct (crashed w) eqn:Hc.
  { rewrite step_crashed by exact Hc. rewrite Hc. exact Hinv. }
  destruct Hinv as [_ Heq]. specialize (Heq eq_refl).
  destruct e as [value|now| | |id o now].
  - rewrite step_change by exact Hc. simpl.
    unfold awaiting in *. simpl. split; [lia | intros _; exact Heq].
  - rewrite step_submit by exact Hc. unfold sendMessage.
    destruct (is_empty _); [rewrite Hc; split; [lia | intros _; exact Heq]|].
    rewrite awaiting_fetch by exact Hf. simpl.
    rewrite !sent_by_app, !length_app. simpl.
    change (awaiting AwaitChat (update _ (update _ w))) with (awaiting AwaitChat w).
    split; [|intros _]; lia.
  - destruct (showHistory (app w)) eqn:Hs.
    + rewrite step_open_again by exact Hs. rewrite Hc. split; [lia | intros _; exact Heq].
    + rewrite step_open by assumption.
      rewrite awaiting_fetch by exact Hf. simpl.
      change (awaiting AwaitChat (update _ (update _ w))) with (awaiting AwaitChat w).
      split; [|intros _]; lia.
  - rewrite step_close by exact Hc. simpl.
    change (awaiting AwaitChat (update _ w)) with (awaiting AwaitChat w).
    split; [lia | intros _; exact Heq].
  - destruct (inflight w !! id) as [[|]|] eqn:Hid.
    + rewrite step_settle_chat by assumption.
      rewrite awaiting_chat_settled.
      pose proof (awaiting_settle AwaitChat AwaitChat id w Hid) as Hs.
      rewrite decide_True in Hs by reflexivity.
      destruct (chat_settled_counts o now (settle id w)) as (Hu & Hb & Hb').
      simpl in Hu, Hb, Hb'. rewrite Hu. split.
      * lia.
      * intros Hc'. specialize (Hb' Hc Hc'). lia.
    + rewrite step_settle_history by assumption.
      rewrite awaiting_history_settled, history_settled_messages.
      pose proof (awaiting_settle AwaitChat AwaitHistory id w Hid) as Hs.
      rewrite decide_False in Hs by discriminate. simpl.
      split; [|intros _]; lia.
    + rewrite step_settle_unknown by exact Hid. rewrite Hc.
      split; [lia | intros _; exact Heq].
Qed.

(** Every question is answered or pending: while the component is up, the
    bot messages in the session list plus the chat requests still in flight
    number exactly the user messages, and there are never more bot messages
    than user messages. *)
Theorem answered_or_pending (evs : list Event) :
  (length (sent_by (lit "bot") (messages (app (run initial evs))))
   + awaiting AwaitChat (run initial evs)
   <= length (sent_by (lit "user") (messages (app (run initial evs)))))%nat
  /\ (crashed (run initial evs) = false ->
      (length (sent_by (lit "bot") (messages (app (run initial evs))))
       + awaiting AwaitChat (run initial evs))%nat
      = length (sent_by (lit "user") (messages (app (run initial evs))))).
Proof.
  induction evs as [|e rest IH] using rev_ind.
  - split; [|intros _]; reflexivity.
  - rewrite run_snoc. apply balance_step; [|exact IH].
    apply fresh_run, fresh_initial.
Qed.

(* ===================================================================== *)
(** ** What is sent *)
(* ===================================================================== *)

Lemma settling_requests_none (w : World) (id : nat) (o : FetchOutcome) (now : jsstring) :
  sent (step w (Settle id o now)) = sent w.
Proof.
  destruct (crashed w) eqn:Hc.
  { rewrite step_crashed by exact Hc. reflexivity. }
  destruct (inflight w !! id) as [[|]|] eqn:Hid.
  - rewrite step_settle_chat by assumption. rewrite chat_settled_sent. reflexivity.
  - rewrite step_settle_history by assumption. rewrite history_settled_sent. reflexivity.
  - rewrite step_settle_unknown by exact Hid. reflexivity.
Qed.

Lemma step_sent (w : World) (e : Event) :
  exists new,
    sent (step w e) = sent w ++ new
    /\ Forall (fun r => r = history_request
                        \/ exists s, blank s = false /\ r = chat_request s) new.
Proof.
  assert (Hnil : forall w', sent w' = sent w ->
    exists new, sent w' = sent w ++ new
      /\ Forall (fun r => r = history_request
                          \/ exists s, blank s = false /\ r = chat_request s) new).
  { intros w' H. exists []. rewrite app_nil_r. split; [exact H | constructor]. }
  destruct (crashed w) eqn:Hc.
  { rewrite step_crashed by exact Hc. apply Hnil. reflexivity. }
  destruct e as [value|now| | |id o now].
  - rewrite step_change by exact Hc. apply Hnil. reflexivity.
  - rewrite step_submit by exact Hc. unfold sendMessage.
    destruct (is_empty (trim (input (app w)))) eqn:E; [apply Hnil; reflexivity|].
    exists [chat_request (input (app w))]. split; [reflexivity|].
    constructor; [|constructor]. right. exists (input (app w)).
    rewrite is_empty_trim in E. split; [exact E | reflexivity].
  - destruct (showHistory (app w)) eqn:Hs.
    + rewrite step_open_again by exact Hs. apply Hnil. reflexivity.
    + rewrite step_open by assumption. exists [history_request].
      split; [reflexivity|]. constructor; [left; reflexivity | constructor].
  - rewrite step_close by exact Hc. apply Hnil. reflexivity.
  - apply Hnil. apply settling_requests_none.
Qed.

(** The component only ever talks to its two endpoints, and never posts a
    blank message: every request issued is the GET of the history or the POST
    of a text holding something other than white space. *)
Theorem only_two_endpoints (w : World) (evs : list Event) :
  exists new,
    sent (run w evs) = sent w ++ new
    /\ Forall (fun r => r = history_request
                        \/ exists s, blank s = false /\ r = chat_request s) new.
Proof.
  revert w. induction evs as [|e rest IH]; intros w.
  - exists []. rewrite app_nil_r. split; [reflexivity | constructor].
  - destruct (IH (step w e)) as (later & Hl & Fl).
    destruct (step_sent w e) as (first & Hf & Ff).
    exists (first ++ later). split.
    + rewrite run_cons, Hl, Hf, app_assoc. reflexivity.
    + apply Forall_app. split; assumption.
Qed.

Lemma chat_requests_fetch_chat (s : jsstring) (k : Continuation) (w : World) :
  chat_requests (fetch (chat_request s) k w) = chat_requests w ++ [chat_request s].
Proof. unfold chat_requests, fetch. simpl. rewrite List.filter_app. reflexivity. Qed.

Lemma chat_requests_fetch_history (k : Continuation) (w : World) :
  chat_requests (fetch history_request k w) = chat_requests w.
Proof.
  unfold chat_requests, fetch. simpl. rewrite List.filter_app. simpl.
  apply app_nil_r.
Qed.

Lemma posted_step (w : World) (e : Event) :
  Forall2 (fun m r => exists s, text m = JStr s /\ r = chat_request s)
    (sent_by (lit "user") (messages (app w))) (chat_requests w) ->
  Forall2 (fun m r => exists s, text m = JStr s /\ r = chat_request s)
    (sent_by (lit "user") (messages (app (step w e)))) (chat_requests (step w e)).
Proof.
  intros Hinv. destruct (crashed w) eqn:Hc.
  { rewrite step_crashed by exact Hc. exact Hinv. }
  destruct e as [value|now| | |id o now].
  - rewrite step_change by exact Hc. exact Hinv.
  - rewrite step_submit by exact Hc. unfold sendMessage.
    destruct (is_empty _); [exact Hinv|].
    rewrite chat_requests_fetch_chat. simpl. rewrite sent_by_app.
    apply Forall2_app; [exact Hinv|].
    constructor; [|constructor]. eexists. split; reflexivity.
  - destruct (showHistory (app w)) eqn:Hs.
    + rewrite step_open_again by exact Hs. exact Hinv.
    + rewrite step_open by assumption.
      rewrite chat_requests_fetch_history. exact Hinv.
  - rewrite step_close by exact Hc. exact Hinv.
  - destruct (inflight w !! id) as [[|]|] eqn:Hid.
    + rewrite step_settle_chat by assumption.
      destruct (chat_settled_counts o now (settle id w)) as (Hu & _).
      rewrite Hu. unfold chat_requests. rewrite chat_settled_sent. exact Hinv.
    + rewrite step_settle_history by assumption.
      rewrite history_settled_messages.
      unfold chat_requests. rewrite history_settled_sent. exact Hinv.
    + rewrite step_settle_unknown by exact Hid. exact Hinv.
Qed.

(** What is shown is what was sent: the user messages of the session list
    and the requests to the chat endpoint correspond one to one, in order,
    each request posting the text of its message. *)
Theorem transcript_matches_posts (evs : list Event) :
  Forall2 (fun m r => exists s, text m = JStr s /\ r = chat_request s)
    (sent_by (lit "user") (messages (app (run initial evs))))
    (chat_requests (run initial evs)).
Proof.
  induction evs as [|e rest IH] using rev_ind.
  - constructor.
  - rewrite run_snoc. apply posted_step, IH.
Qed.

(* ===================================================================== *)
(** ** Replies arrive in any order *)
(* ===================================================================== *)

Lemma chat_settled_appends (o : FetchOutcome) (now : jsstring) :
  exists reply, forall w,
    messages (app (chat_settled o now w)) = messages (app w) ++ reply.
Proof.
  unfold chat_settled. destruct o as [|status [data|]].
  - eexists. intros w. reflexivity.
  - destruct (get_member data (lit "reply")) as [reply|].
    + eexists. intros w. reflexivity.
    + exists []. intros w. simpl. rewrite app_nil_r. reflexivity.
  - eexists. intros w. reflexivity.
Qed.

(** Replies are appended in the order the responses arrive, not in the order
    the messages were sent: with two chat requests in flight, whichever
    settles first puts its bot message first, and what each one appends
    depends on its own response only. *)
Theorem replies_in_arrival_order (w : World) (i j : nat) (oi oj : FetchOutcome)
    (ni nj : jsstring) :
  crashed w = false ->
  i <> j ->
  inflight w !! i = Some AwaitChat ->
  inflight w !! j = Some AwaitChat ->
  crashed (step w (Settle i oi ni)) = false ->
  crashed (step w (Settle j oj nj)) = false ->
  exists a b,
    messages (app (step w (Settle i oi ni))) = messages (app w) ++ a
    /\ messages (app (step w (Settle j oj nj))) = messages (app w) ++ b
    /\ messages (app (step (step w (Settle i oi ni)) (Settle j oj nj)))
       = messages (app w) ++ a ++ b
    /\ messages (app (step (step w (Settle j oj nj)) (Settle i oi ni)))
       = messages (app w) ++ b ++ a.
Proof.
  intros Hc Hij Hi Hj Hci Hcj.
  destruct (chat_settled_appends oi ni) as (a & Ha).
  destruct (chat_settled_appends oj nj) as (b & Hb).
  exists a, b.
  assert (Hj' : inflight (step w (Settle i oi ni)) !! j = Some AwaitChat).
  { rewrite step_settle_chat by assumption. rewrite chat_settled_inflight. simpl.
    rewrite lookup_delete_ne by exact Hij. exact Hj. }
  assert (Hi' : inflight (step w (Settle j oj nj)) !! i = Some AwaitChat).
  { rewrite step_settle_chat by assumption. rewrite chat_settled_inflight. simpl.
    rewrite lookup_delete_ne by (intros E; apply Hij; symmetry; exact E). exact Hi. }
  rewrite (step_settle_chat _ j oj nj Hci Hj').
  rewrite (step_settle_chat _ i oi ni Hcj Hi').
  rewrite !step_settle_chat by assumption.
  rewrite !Ha, !Hb. simpl. rewrite !Ha, !Hb. simpl.
  rewrite <- !app_assoc. repeat split.
Qed.

Lemma replies_in_arrival_order_witness :
  exists a b,
    messages (app (step asked_twice (Settle 0 (Response 200 (Some hello_reply)) (lit "10:01"))))
      = messages (app asked_twice) ++ a
    /\ messages (app (step asked_twice (Settle 1 NetworkError (lit "10:02"))))
      = messages (app asked_twice) ++ b
    /\ messages (app (step (step asked_twice (Settle 0 (Response 200 (Some hello_reply)) (lit "10:01")))
                           (Settle 1 NetworkError (lit "10:02"))))
       = messages (app asked_twice) ++ a ++ b
    /\ messages (app (step (step asked_twice (Settle 1 NetworkError (lit "10:02")))
                           (Settle 0 (Response 200 (Some hello_reply)) (lit "10:01"))))
       = messages (app asked_twice) ++ b ++ a.
Proof.
  apply replies_in_arrival_order;
    [reflexivity | discriminate | reflexivity | reflexivity | reflexivity | reflexivity].
Defined.

(* ===================================================================== *)
(** ** Rendering *)
(* ===================================================================== *)

Lemma history_shown_step (w : World) (e : Event) :
  (forall id status data now h,
     e = Settle id (Response status (Some data)) now ->
     get_member data (lit "history") = Normal h ->
     truthy h = true ->
     exists l rows, h = JArr l /\ history_rows l = Normal rows
                    /\ forallb row_shown rows = true) ->
  (exists l rows, history (app w) = JArr l /\ history_rows l = Normal rows
                  /\ forallb row_shown rows = true) ->
  exists l rows, history (app (step w e)) = JArr l /\ history_rows l = Normal rows
                 /\ forallb row_shown rows = true.
Proof.
  intros Hok Harr. destruct (crashed w) eqn:Hc.
  { rewrite step_crashed by exact Hc. exact Harr. }
  destruct e as [value|now| | |id o now].
  - rewrite step_change by exact Hc. exact Harr.
  - rewrite step_submit by exact Hc. unfold sendMessage.
    destruct (is_empty _); exact Harr.
  - destruct (showHistory (app w)) eqn:Hs.
    + rewrite step_open_again by exact Hs. exact Harr.
    + rewrite step_open by assumption. exact Harr.
  - rewrite step_close by exact Hc. exact Harr.
  - destruct (inflight w !! id) as [[|]|] eqn:Hid.
    + rewrite step_settle_chat by assumption. unfold chat_settled.
      destruct o as [|status [data|]]; try exact Harr.
      destruct (get_member data _); exact Harr.
    + rewrite step_settle_history by assumption. unfold history_settled.
      destruct o as [|status [data|]]; try exact Harr.
      destruct (get_member data (lit "history")) as [h|] eqn:Hg; [|exact Harr].
      simpl. unfold js_or. destruct (truthy h) eqn:Ht.
      * apply (Hok id status data now h eq_refl Hg Ht).
      * exists [], []. repeat split.
    + rewrite step_settle_unknown by exact Hid. exact Harr.
Qed.

(** As long as every response carries a [history] that, whenever it is
    truthy, is a list without null entries whose texts and times React takes
    as children, the history cell holds such a list and rendering the panel
    never throws: neither the conditional, nor the callback of the map, nor
    the children of a row. *)
Theorem array_history_renders (evs : list Event) :
  Forall (fun e => forall id status data now h,
            e = Settle id (Response status (Some data)) now ->
            get_member data (lit "history") = Normal h ->
            truthy h = true ->
            exists l rows, h = JArr l /\ history_rows l = Normal rows
                           /\ forallb row_shown rows = true) evs ->
  (exists l rows, history (app (run initial evs)) = JArr l
                  /\ history_rows l = Normal rows
                  /\ forallb row_shown rows = true)
  /\ historyPanel (app (run initial evs)) <> RenderThrows.
Proof.
  intros Hok.
  assert (Harr : exists l rows, history (app (run initial evs)) = JArr l
                   /\ history_rows l = Normal rows
                   /\ forallb row_shown rows = true).
  { induction evs as [|e rest IH] using rev_ind.
    - exists [], []. repeat split.
    - apply Forall_app in Hok as [Hrest He].
      rewrite run_snoc. apply history_shown_step.
      + apply Forall_inv in He. exact He.
      + apply IH, Hrest. }
  split; [exact Harr|].
  destruct Harr as (l & rows & Hl & Hrows & Hshown).
  unfold historyPanel. rewrite Hl.
  destruct (loadingHistory _); [discriminate|].
  destruct l as [|e es]; [discriminate|].
  rewrite Hrows, Hshown. discriminate.
Qed.

Lemma array_history_renders_witness :
  (exists l rows, history (app (run initial
     [ClickHistory; Settle 0 (Response 200 (Some one_entry)) []])) = JArr l
     /\ history_rows l = Normal rows /\ forallb row_shown rows = true)
  /\ historyPanel (app (run initial
     [ClickHistory; Settle 0 (Response 200 (Some one_entry)) []])) <> RenderThrows.
Proof.
  apply array_history_renders.
  constructor; [|constructor; [|constructor]].
  - intros id status data now h He. discriminate He.
  - intros id status data now h He Hg _.
    injection He as _ _ <- _. simpl in Hg. injection Hg as <-.
    eexists _, _. repeat split.
Defined.

(** In the session list every row carries exactly one avatar, on its own
    side: a user message is pushed to the right with the person after the
    bubble, a bot message to the left with the robot before it; and there is
    one row per message. *)
Theorem every_row_has_one_avatar (evs : list Event) :
  length (chat_rows (app (run initial evs)))
    = length (messages (app (run initial evs)))
  /\ Forall (fun row =>
       (justify row = lit "justify-end"
        /\ user_avatar row = true /\ bot_avatar row = false)
       \/ (justify row = lit "justify-start"
           /\ bot_avatar row = true /\ user_avatar row = false))
     (chat_rows (app (run initial evs))).
Proof.
  unfold chat_rows. split; [apply length_map|].
  apply Forall_map.
  destruct (run_messages initial evs) as (appended & Happ & Hwf).
  rewrite Happ. simpl.
  eapply Forall_impl; [exact Hwf|].
  intros m ([Hs | Hs] & _ & _); unfold message_row; simpl; rewrite Hs.
  - left. repeat split.
  - right. repeat split.
Qed.

Lemma strict_eq_string_true (v : JsVal) (s : jsstring) :
  strict_eq_string v s = true <-> v = JStr s.
Proof.
  destruct v; simpl; try (split; [discriminate | discriminate]).
  rewrite bool_decide_eq_true. split; [intros ->; reflexivity | congruence].
Qed.

Lemma history_row_spec (msg : JsVal) :
  (history_row msg = Throw <-> absent msg = true)
  /\ (forall row, history_row msg = Normal row ->
        (label row = lit "You"
         <-> get_member msg (lit "sender") = Normal (JStr (lit "user")))
        /\ (label row = lit "You" \/ label row = lit "Bot")
        /\ get_member msg (lit "text") = Normal (entry_text row)
        /\ get_member msg (lit "timestamp") = Normal (entry_timestamp row)).
Proof.
  assert (Hlabel : forall from content time row,
    Normal (mkHistoryRow
      (if strict_eq_string from (lit "user") then lit "bg-blue-200" else lit "bg-purple-200")
      (if strict_eq_string from (lit "user") then PERSON else ROBOT)
      (if strict_eq_string from (lit "user") then lit "You" else lit "Bot")
      content time) = Normal row ->
    (label row = lit "You" <-> Normal from = Normal (JStr (lit "user")))
    /\ (label row = lit "You" \/ label row = lit "Bot")
    /\ Normal content = Normal (entry_text row)
    /\ Normal time = Normal (entry_timestamp row)).
  { intros from content time row H. injection H as <-. simpl.
    destruct (strict_eq_string from (lit "user")) eqn:E.
    - apply strict_eq_string_true in E. subst from.
      repeat split; auto.
    - repeat split; auto.
      + intros H. vm_compute in H. discriminate.
      + intros H. injection H as ->. vm_compute in E. discriminate. }
  unfold history_row, get_member.
  destruct msg as [| |b|x|s|elems|ms]; cbv beta iota;
    try (split; [split; reflexivity | discriminate]);
    (split; [split; discriminate | apply Hlabel]).
Qed.

(** The fetched list shows one row per entry, in order; rendering throws
    exactly when some entry is [null]; an entry is labelled [You] exactly
    when its sender is the string [user], and [Bot] in every other case, a
    missing sender included. *)
Theorem history_rows_follow_entries (entries : list JsVal) :
  (history_rows entries = Throw <-> Exists (fun msg => absent msg = true) entries)
  /\ (forall rows, history_rows entries = Normal rows ->
        Forall2 (fun msg row =>
          (label row = lit "You"
           <-> get_member msg (lit "sender") = Normal (JStr (lit "user")))
          /\ (label row = lit "You" \/ label row = lit "Bot")
          /\ get_member msg (lit "text") = Normal (entry_text row)
          /\ get_member msg (lit "timestamp") = Normal (entry_timestamp row))
          entries rows).
Proof.
  induction entries as [|msg rest [IHt IHn]].
  - split.
    + split; [discriminate | intros H; inversion H].
    + intros rows H. injection H as <-. constructor.
  - destruct (history_row_spec msg) as [Ht Hn]. simpl.
    destruct (history_row msg) as [row|].
    + destruct (history_rows rest) as [rows0|].
      * split.
        -- split; [discriminate|]. intros H. apply Exists_cons in H as [H | H].
           ++ apply Ht in H. discriminate.
           ++ apply IHt in H. discriminate.
        -- intros rows H. injection H as <-.
           constructor; [apply Hn; reflexivity | apply IHn; reflexivity].
      * split; [|discriminate]. split; [|reflexivity].
        intros _. apply Exists_cons. right. apply IHt. reflexivity.
    + split; [|discriminate]. split; [|reflexivity].
      intros _. apply Exists_cons. left. apply Ht. reflexivity.
Qed.

(* ===================================================================== *)
(** ** Bodies that are not objects *)
(* ===================================================================== *)

Lemma chat_reply_missing_any_witness :
  messages (app (step asked (Settle 0 (Response 200 (Some (JArr []))) (lit "10:01"))))
  = messages (app asked) ++ [bot_message NO_REPLY (lit "10:01")].
Proof. apply chat_reply_missing_any; reflexivity. Defined.

(** A chat response whose body is JSON [null]: reading [reply] throws when
    React runs the updater, outside the [try] of [sendMessage]; no bot
    message is appended, not even the error text, the component is unmounted
    and nothing that happens later changes anything. *)
Theorem chat_null_body_is_fatal (w : World) (id : nat) (status : N)
    (now : jsstring) (evs : list Event) :
  crashed w = false ->
  inflight w !! id = Some AwaitChat ->
  messages (app (step w (Settle id (Response status (Some JNull)) now)))
    = messages (app w)
  /\ crashed (step w (Settle id (Response status (Some JNull)) now)) = true
  /\ run (step w (Settle id (Response status (Some JNull)) now)) evs
     = step w (Settle id (Response status (Some JNull)) now).
Proof.
  intros Hc Hid. rewrite step_settle_chat by assumption. simpl.
  repeat split. apply run_crashed. reflexivity.
Qed.

Lemma chat_null_body_is_fatal_witness :
  messages (app (step asked (Settle 0 (Response 200 (Some JNull)) (lit "10:01"))))
    = messages (app asked)
  /\ crashed (step asked (Settle 0 (Response 200 (Some JNull)) (lit "10:01"))) = true
  /\ run (step asked (Settle 0 (Response 200 (Some JNull)) (lit "10:01")))
         [Change (lit "again"); Submit (lit "10:02")]
     = step asked (Settle 0 (Response 200 (Some JNull)) (lit "10:01")).
Proof. apply chat_null_body_is_fatal; reflexivity. Defined.
